(** * JW Time website: a model of [js/main.js]

    The script is one immediately-invoked function holding four module
    objects ([Theme], [Language], [Navigation], [Utils]) that read and
    mutate the browser's state: the DOM, [localStorage], [window.location],
    the colour-scheme media query, event listeners, the clipboard and
    timers.  The model passes that state explicitly: every method is a
    function from [state] to [state] (or to a value it returns). *)

From Stdlib Require Import Ascii String.
From stdpp Require Import base option list gmap strings.

Local Open Scope string_scope.
Local Open Scope list_scope.

(** ** JavaScript strings

    A JS string is a sequence of code units; [includes], [split] and [===]
    compare code units one by one, so the element type does not matter for
    them and [string] stands for it. *)

Module JSString.

(** [s.startsWith(p)]; also the test of the attribute selector
    [[attr^="p"]]. *)
Fixpoint startsWith (s p : string) : bool :=
  match p, s with
  | EmptyString, _ => true
  | String _ _, EmptyString => false
  | String a p', String b s' => if decide (a = b) then startsWith s' p' else false
  end.

(** [s.includes(sub)]: [sub] occurs in [s] at some position. *)
Fixpoint includes (s sub : string) : bool :=
  startsWith s sub ||
  match s with
  | EmptyString => false
  | String _ s' => includes s' sub
  end.

(** [s.split(sep)] for a separator of one code unit. The result is never
    empty: a string without separator gives one part. *)
Fixpoint split (sep : ascii) (s : string) : list string :=
  match s with
  | EmptyString => [EmptyString]
  | String c s' =>
      if decide (c = sep) then EmptyString :: split sep s'
      else match split sep s' with
           | part :: parts => String c part :: parts
           | [] => [String c EmptyString]
           end
  end.

(** [parts[parts.length - 1]], [undefined] on an empty array. *)
Definition last_part (parts : list string) : option string :=
  parts !! (length parts - 1).

(** [v || d] on a string-or-undefined value: the empty string and
    [undefined] are falsy. *)
Definition or_default (v : option string) (d : string) : string :=
  match v with
  | Some EmptyString | None => d
  | Some s => s
  end.

(** [array.includes(x)] on an array of strings. *)
Definition array_includes (l : list string) (x : string) : bool :=
  bool_decide (x ∈ l).

End JSString.

Import JSString.

(** ** The DOM

    Nodes are held in a store and named by their position in it ([ref]), so
    that a closure that captured an element and a later query that finds it
    again reach the same object. Position 0 is [document.body]; the
    elements of the parsed page follow in document order, and an element
    the script creates takes the next free position, so a parent
    stands before its children. A node that is removed from the tree keeps
    its position and is marked as no longer connected; queries skip it. An
    element knows its parent and lists its children, text nodes included,
    in their order: the text of an element is read off that list. *)

Abbreviation ref := nat (only parsing).

(** The two template literals of [updateToggleButton]. Their SVG markup is
    named, not spelled out: the script only ever assigns it. *)
Inductive icon := sunIcon | moonIcon.

(** What stands below an element: a text node, an element of the store, or
    the [svg] that the markup of an icon creates. *)
Inductive child :=
| TextNode (t : string)
| ElementNode (r : ref)
| IconNode (i : icon).

Record element := {
  tagName : string;                  (* local name, lower case *)
  attributes : gmap string string;   (* getAttribute / setAttribute *)
  classList : list string;           (* the token set of the class attribute *)
  style : gmap string string;        (* inline declarations *)
  childNodes : list child;
  hostname : string;                 (* anchors: host of the resolved href *)
  parentElement : option ref;
  isConnected : bool                 (* still part of the document tree *)
}.

Definition set_attributes (f : gmap string string → gmap string string) (e : element) : element :=
  {| tagName := tagName e; attributes := f (attributes e); classList := classList e;
     style := style e; childNodes := childNodes e;
     hostname := hostname e; parentElement := parentElement e; isConnected := isConnected e |}.

Definition set_classList (f : list string → list string) (e : element) : element :=
  {| tagName := tagName e; attributes := attributes e; classList := f (classList e);
     style := style e; childNodes := childNodes e;
     hostname := hostname e; parentElement := parentElement e; isConnected := isConnected e |}.

Definition set_style (f : gmap string string → gmap string string) (e : element) : element :=
  {| tagName := tagName e; attributes := attributes e; classList := classList e;
     style := f (style e); childNodes := childNodes e;
     hostname := hostname e; parentElement := parentElement e; isConnected := isConnected e |}.

Definition set_childNodes (f : list child → list child) (e : element) : element :=
  {| tagName := tagName e; attributes := attributes e; classList := classList e;
     style := style e; childNodes := f (childNodes e);
     hostname := hostname e; parentElement := parentElement e; isConnected := isConnected e |}.

Definition set_parentElement (p : option ref) (e : element) : element :=
  {| tagName := tagName e; attributes := attributes e; classList := classList e;
     style := style e; childNodes := childNodes e;
     hostname := hostname e; parentElement := p; isConnected := isConnected e |}.

Definition set_isConnected (b : bool) (e : element) : element :=
  {| tagName := tagName e; attributes := attributes e; classList := classList e;
     style := style e; childNodes := childNodes e;
     hostname := hostname e; parentElement := parentElement e; isConnected := b |}.

(** [element.innerHTML], as far as the script is concerned: the icon whose
    markup was assigned, as long as the children are what it created. *)
Definition innerHTML (e : element) : option icon :=
  match childNodes e with
  | [IconNode i] => Some i
  | _ => None
  end.

(** [DOMTokenList]: an ordered set of class names. *)
Module ClassList.

Definition contains (c : string) (l : list string) : bool := bool_decide (c ∈ l).

Definition add (c : string) (l : list string) : list string :=
  if contains c l then l else l ++ [c].

Definition remove (c : string) (l : list string) : list string :=
  filter (λ x, x ≠ c) l.

Definition toggle (c : string) (l : list string) : list string :=
  if contains c l then remove c l else add c l.

End ClassList.

(** [element.getAttribute(name)]: [None] is JS [null]. *)
Definition getAttribute (name : string) (e : element) : option string :=
  attributes e !! name.

Definition setAttribute (name value : string) (e : element) : element :=
  set_attributes <[name := value]> e.

Record dom := {
  body : element;
  elements : list element
}.

Definition nodes (d : dom) : list element := body d :: elements d.

(** Mutation of the object behind a reference. *)
Definition update (f : element → element) (r : ref) (d : dom) : dom :=
  match r with
  | 0 => {| body := f (body d); elements := elements d |}
  | S i => {| body := body d; elements := alter f i (elements d) |}
  end.

(** [document.createElement] followed by [parent.appendChild(e)]: the new
    element gets the next free reference and becomes the last child of
    [parent]. *)
Definition appendChild (parent : ref) (e : element) (d : dom) : dom :=
  let new : ref := length (nodes d) in
  let d1 := update (set_childNodes (λ l, l ++ [ElementNode new])) parent d in
  {| body := body d1; elements := elements d1 ++ [e] |}.

(** Does some proper ancestor of [r] satisfy [P]? The walk up the parent
    chain is bounded by [fuel]; the number of nodes is always enough. *)
Fixpoint has_ancestor (d : dom) (P : ref → bool) (fuel : nat) (r : ref) : bool :=
  match fuel with
  | 0 => false
  | S fuel' =>
      match nodes d !! r ≫= parentElement with
      | None => false
      | Some p => P p || has_ancestor d P fuel' p
      end
  end.

(** *** Selectors

    The selectors the script passes to [querySelector] and
    [querySelectorAll], as syntax. *)
Inductive selector :=
| SelTag (t : string)                   (* [t] *)
| SelClass (c : string)                 (* [.c] *)
| SelAttr (a : string)                  (* [[a]] *)
| SelAttrPrefix (a p : string)          (* [[a^="p"]] *)
| SelAnd (s1 s2 : selector)             (* compound: [s1s2] *)
| SelDescendant (anc s : selector).     (* [anc s] *)

Fixpoint matches (d : dom) (sel : selector) (r : ref) : bool :=
  match sel with
  | SelTag t =>
      match nodes d !! r with Some e => bool_decide (tagName e = t) | None => false end
  | SelClass c =>
      match nodes d !! r with Some e => ClassList.contains c (classList e) | None => false end
  | SelAttr a =>
      match nodes d !! r with Some e => bool_decide (is_Some (getAttribute a e)) | None => false end
  | SelAttrPrefix a p =>
      match nodes d !! r ≫= getAttribute a with
      | Some v => startsWith v p
      | None => false
      end
  | SelAnd s1 s2 => matches d s1 r && matches d s2 r
  | SelDescendant anc s =>
      matches d s r && has_ancestor d (matches d anc) (length (nodes d)) r
  end.

Definition connected (d : dom) (r : ref) : bool :=
  match nodes d !! r with Some e => isConnected e | None => false end.

(** [document.querySelectorAll(sel)]: a static list, in document order. *)
Definition querySelectorAll (sel : selector) (d : dom) : list ref :=
  filter (λ r, connected d r && matches d sel r) (seq 0 (length (nodes d))).

(** [document.querySelector(sel)]: the first match or [null]. *)
Definition querySelector (sel : selector) (d : dom) : option ref :=
  head (querySelectorAll sel d).

(** [document.getElementById(id)]. *)
Definition getElementById (id : string) (d : dom) : option ref :=
  head (filter (λ r, connected d r &&
                     bool_decide (nodes d !! r ≫= getAttribute "id" = Some id))
               (seq 0 (length (nodes d)))).

(** [nodeList.forEach(f)]. *)
Definition forEach {A S : Type} (f : A → S → S) (l : list A) (s : S) : S :=
  foldl (λ acc x, f x acc) s l.

(** *** Text and children

    The text inside the markup of the two icons: a line break and sixteen
    blanks before the [path], a line break and twelve blanks after it
    (lines 132-138). *)
Definition icon_text (i : icon) : string :=
  let newline := String (ascii_of_nat 10) EmptyString in
  newline +:+ "                " +:+ newline +:+ "            ".

(** [element.textContent] read: the text of all text nodes below the
    element, in tree order. The descent is bounded by [fuel]; the number of
    nodes is always enough. *)
Fixpoint textContent_below (d : dom) (fuel : nat) (r : ref) : string :=
  match fuel with
  | 0 => EmptyString
  | S fuel' =>
      match nodes d !! r with
      | None => EmptyString
      | Some e =>
          foldr (λ ch rest,
                   match ch with
                   | TextNode t => t
                   | ElementNode c => textContent_below d fuel' c
                   | IconNode i => icon_text i
                   end +:+ rest)
                EmptyString (childNodes e)
      end
  end.

Definition textContent (d : dom) (r : ref) : string :=
  textContent_below d (length (nodes d)) r.

(** A node below [r] when the children of [r] are taken out: it leaves the
    document, and a child of [r] has no parent any more. It stays in the
    store, for the closures that may hold it. *)
Definition detached (r : ref) (e : element) : element :=
  set_isConnected false
    (if decide (parentElement e = Some r) then set_parentElement None e else e).

Definition detachChildren (r : ref) (d : dom) : dom :=
  let below := filter (λ x, has_ancestor d (λ a, bool_decide (a = r)) (length (nodes d)) x)
                      (seq 0 (length (nodes d))) in
  forEach (update (detached r)) below d.

(** [element.textContent = t]: the children are replaced by one text node,
    by nothing when [t] is empty. *)
Definition assign_textContent (t : string) (r : ref) (d : dom) : dom :=
  update (set_childNodes (λ _, if decide (t = EmptyString) then [] else [TextNode t])) r
         (detachChildren r d).

(** ** Browser state *)

(** What an event listener is attached to. *)
Inductive target :=
| Element (r : ref)
| DarkModeQuery.            (* [window.matchMedia('(prefers-color-scheme: dark)')] *)

(** The arrow functions the script registers as listeners, each with the
    variables it closes over. (The listener of [setupSmoothScroll] only
    scrolls the window and is left out.) *)
Inductive handler :=
| SystemThemeChange                        (* [watchSystemTheme], line 76 *)
| ThemeToggleClick                         (* [setupToggleButton], line 119 *)
| LangLinkClick (link : ref)               (* [Language.init], line 196 *)
| MobileMenuClick (menuToggle nav : ref)   (* [setupMobileMenu], line 253 *)
| CopyClick (codeBlock button : ref).      (* [addCopyButtonsToCodeBlocks], line 304 *)

(** The callbacks handed to [then] and to [setTimeout]. *)
Inductive callback :=
| CopyDone (button : ref)                  (* line 306 *)
| CopyRevert (button : ref).               (* line 308 *)

Record listener := {
  l_target : target;
  l_type : string;
  l_handler : handler
}.

(** A promise returned by [navigator.clipboard.writeText] that has not
    settled yet, with the callback [then] attached to its success. *)
Record clipboardWrite := {
  cw_text : string;
  cw_then : callback
}.

Record timer := {
  t_callback : callback;
  t_delay : nat                (* milliseconds *)
}.

Record state := {
  document : dom;
  localStorage : gmap string string;
  pathname : string;             (* [window.location.pathname] *)
  location_hostname : string;    (* [window.location.hostname] *)
  navigation : option string;    (* the URL last assigned to [window.location.href] *)
  prefersDark : bool;            (* [matchMedia('(prefers-color-scheme: dark)').matches] *)
  listeners : list listener;
  clipboardWrites : list clipboardWrite;
  timers : list timer
}.

Definition set_document (f : dom → dom) (s : state) : state :=
  {| document := f (document s); localStorage := localStorage s; pathname := pathname s;
     location_hostname := location_hostname s; navigation := navigation s;
     prefersDark := prefersDark s; listeners := listeners s;
     clipboardWrites := clipboardWrites s; timers := timers s |}.

Definition set_localStorage (f : gmap string string → gmap string string) (s : state) : state :=
  {| document := document s; localStorage := f (localStorage s); pathname := pathname s;
     location_hostname := location_hostname s; navigation := navigation s;
     prefersDark := prefersDark s; listeners := listeners s;
     clipboardWrites := clipboardWrites s; timers := timers s |}.

(** [window.location.href = url]: the page keeps running with its old
    location until the browser navigates away. *)
Definition set_href (url : string) (s : state) : state :=
  {| document := document s; localStorage := localStorage s; pathname := pathname s;
     location_hostname := location_hostname s; navigation := Some url;
     prefersDark := prefersDark s; listeners := listeners s;
     clipboardWrites := clipboardWrites s; timers := timers s |}.

(** A page load under another path. *)
Definition set_pathname (path : string) (s : state) : state :=
  {| document := document s; localStorage := localStorage s; pathname := path;
     location_hostname := location_hostname s; navigation := navigation s;
     prefersDark := prefersDark s; listeners := listeners s;
     clipboardWrites := clipboardWrites s; timers := timers s |}.

Definition set_prefersDark (b : bool) (s : state) : state :=
  {| document := document s; localStorage := localStorage s; pathname := pathname s;
     location_hostname := location_hostname s; navigation := navigation s;
     prefersDark := b; listeners := listeners s;
     clipboardWrites := clipboardWrites s; timers := timers s |}.

Definition set_listeners (f : list listener → list listener) (s : state) : state :=
  {| document := document s; localStorage := localStorage s; pathname := pathname s;
     location_hostname := location_hostname s; navigation := navigation s;
     prefersDark := prefersDark s; listeners := f (listeners s);
     clipboardWrites := clipboardWrites s; timers := timers s |}.

Definition set_clipboardWrites (f : list clipboardWrite → list clipboardWrite) (s : state) : state :=
  {| document := document s; localStorage := localStorage s; pathname := pathname s;
     location_hostname := location_hostname s; navigation := navigation s;
     prefersDark := prefersDark s; listeners := listeners s;
     clipboardWrites := f (clipboardWrites s); timers := timers s |}.

Definition set_timers (f : list timer → list timer) (s : state) : state :=
  {| document := document s; localStorage := localStorage s; pathname := pathname s;
     location_hostname := location_hostname s; navigation := navigation s;
     prefersDark := prefersDark s; listeners := listeners s;
     clipboardWrites := clipboardWrites s; timers := f (timers s) |}.

(** [target.addEventListener(type, handler)]. *)
Definition addEventListener (t : target) (type : string) (h : handler) (s : state) : state :=
  set_listeners (λ ls, ls ++ [{| l_target := t; l_type := type; l_handler := h |}]) s.

(** [localStorage.getItem(key)] ([None] is [null]) and [setItem]. *)
Definition getItem (key : string) (s : state) : option string := localStorage s !! key.

Definition setItem (key value : string) (s : state) : state :=
  set_localStorage <[key := value]> s.

(** ** Theme management (lines 13-143) *)

Module Theme.

Definition STORAGE_KEY : string := "jwtime-theme".
Definition DARK : string := "dark".
Definition LIGHT : string := "light".
Definition AUTO : string := "auto".

Definition getSavedTheme (s : state) : option string := getItem STORAGE_KEY s.

Definition saveTheme (theme : string) (s : state) : state := setItem STORAGE_KEY theme s.

(** Lines 52-60. [classList.remove] takes both names in one call; a value
    that is neither [DARK] nor [LIGHT] adds nothing. The comparison is
    [===], so a value that is no string behaves like a string equal to
    neither constant. *)
Definition applyTheme (theme : string) (s : state) : state :=
  let s1 :=
    set_document
      (update (set_classList (λ l, ClassList.remove "light-theme"
                                     (ClassList.remove "dark-theme" l))) 0) s in
  if decide (theme = DARK) then
    set_document (update (set_classList (ClassList.add "dark-theme")) 0) s1
  else if decide (theme = LIGHT) then
    set_document (update (set_classList (ClassList.add "light-theme")) 0) s1
  else s1.

Definition applySystemTheme (s : state) : state :=
  applyTheme (if prefersDark s then DARK else LIGHT) s.

Definition watchSystemTheme (s : state) : state :=
  addEventListener DarkModeQuery "change" SystemThemeChange s.

(** Lines 99-107. *)
Definition getCurrentTheme (s : state) : string :=
  if ClassList.contains "dark-theme" (classList (body (document s))) then DARK
  else if ClassList.contains "light-theme" (classList (body (document s))) then LIGHT
  else if prefersDark s then DARK else LIGHT.

(** Assigning [innerHTML] replaces the children of the element by what the
    markup creates: one [svg]. It is not added to the store; it has no id,
    class or attribute that a selector of this script looks for, and no
    listener is ever put on it. *)
Definition assign_innerHTML (i : icon) (r : ref) (d : dom) : dom :=
  update (set_childNodes (λ _, [IconNode i])) r (detachChildren r d).

(** Lines 127-142. *)
Definition updateToggleButton (theme : string) (s : state) : state :=
  match getElementById "theme-toggle" (document s) with
  | None => s
  | Some toggleBtn =>
      let s1 := set_document
                  (assign_innerHTML (if decide (theme = DARK) then sunIcon else moonIcon)
                                    toggleBtn) s in
      set_document
        (update (setAttribute "title"
                   (if decide (theme = DARK) then "Switch to light mode"
                    else "Switch to dark mode")) toggleBtn) s1
  end.

(** Lines 87-94. *)
Definition toggle (s : state) : state :=
  let currentTheme := getCurrentTheme s in
  let newTheme := if decide (currentTheme = DARK) then LIGHT else DARK in
  updateToggleButton newTheme (saveTheme newTheme (applyTheme newTheme s)).

(** Lines 112-122. *)
Definition setupToggleButton (s : state) : state :=
  match getElementById "theme-toggle" (document s) with
  | None => s
  | Some toggleBtn =>
      let currentTheme := getCurrentTheme s in
      addEventListener (Element toggleBtn) "click" ThemeToggleClick
        (updateToggleButton currentTheme s)
  end.

(** Lines 22-33. [!savedTheme] holds for [null] and for the empty string. *)
Definition init (s : state) : state :=
  let savedTheme := getSavedTheme s in
  let s1 :=
    match savedTheme with
    | None => watchSystemTheme (applySystemTheme s)
    | Some t =>
        if decide (t = AUTO) then watchSystemTheme (applySystemTheme s)
        else if decide (t = "") then watchSystemTheme (applySystemTheme s)
        else applyTheme t s
    end in
  setupToggleButton s1.

(** The listener of [watchSystemTheme], lines 76-81, with [e.matches]. *)
Definition onSystemThemeChange (e_matches : bool) (s : state) : state :=
  match getSavedTheme s with
  | None => applyTheme (if e_matches then DARK else LIGHT) s
  | Some t =>
      if decide (t = AUTO) then applyTheme (if e_matches then DARK else LIGHT) s
      else if decide (t = "") then applyTheme (if e_matches then DARK else LIGHT) s
      else s
  end.

End Theme.

(** ** Language management (lines 149-219) *)

Module Language.

Definition STORAGE_KEY : string := "jwtime-lang".
Definition SUPPORTED : list string := ["it"; "en"; "es"; "de"; "fr"; "pt_BR"].

(** Lines 156-160. *)
Definition save (lang : string) (s : state) : state :=
  if array_includes SUPPORTED lang then setItem STORAGE_KEY lang s else s.

Definition get (s : state) : option string := getItem STORAGE_KEY s.

(** Lines 172-187. The early [return] leaves the state as it is. *)
Definition switch (newLang : string) (s : state) : state :=
  if negb (array_includes SUPPORTED newLang) then s
  else
    let s1 := save newLang s in
    let currentPath := pathname s1 in
    let basePath := if includes currentPath "/jwtime/" then "/jwtime/" else "/" in
    let pathParts := split "/" currentPath in
    let currentPage := or_default (last_part pathParts) "index.html" in
    set_href (basePath +:+ newLang +:+ "/" +:+ currentPage) s1.

(** The alternatives of the group in the literal
    [/\/(it|en|es|de|fr|pt_BR)\//], in the order they are written. *)
Definition PATTERN_ALTERNATIVES : list string := ["it"; "en"; "es"; "de"; "fr"; "pt_BR"].

(** The regular expression anchored at the start of [s]: a slash, the
    first alternative that is followed by a slash. The result is the
    text of the group. *)
Definition match_here (s : string) : option string :=
  match s with
  | String "/" rest =>
      head (filter (λ alt, startsWith rest (alt +:+ "/")) PATTERN_ALTERNATIVES)
  | _ => None
  end.

(** [path.match(/\/(it|en|es|de|fr|pt_BR)\//)]: the leftmost match;
    [Some g] stands for the match array with [g] as its element 1,
    [None] for [null]. *)
Fixpoint match_lang (path : string) : option string :=
  match match_here path with
  | Some g => Some g
  | None =>
      match path with
      | EmptyString => None
      | String _ rest => match_lang rest
      end
  end.

(** Lines 210-218. *)
Definition detectAndSaveCurrentLanguage (s : state) : state :=
  let currentPath := pathname s in
  match match_lang currentPath with
  | Some g => save g s
  | None => s
  end.

(** Lines 192-205. *)
Definition init (s : state) : state :=
  let langLinks := querySelectorAll (SelAttr "data-lang") (document s) in
  let s1 := forEach (λ link, addEventListener (Element link) "click" (LangLinkClick link))
                    langLinks s in
  detectAndSaveCurrentLanguage s1.

(** The listener of [init], lines 196-200. [preventDefault] cancels the
    browser's own navigation to the link, which the model does not
    perform anyway. [getAttribute] gives [null] when the attribute is
    gone; [null] is not in [SUPPORTED]. *)
Definition onLangLinkClick (link : ref) (s : state) : state :=
  match nodes (document s) !! link ≫= getAttribute "data-lang" with
  | Some targetLang => switch targetLang s
  | None => s
  end.

End Language.

(** ** Navigation utilities (lines 225-280) *)

Module Navigation.

(** [String(v)] for a string-or-null value, as [includes] applies it to
    its argument. *)
Definition toString (v : option string) : string := default "null" v.

(** The body of the [forEach] callback, lines 234-240, on the element
    itself. [null !== '/'] holds. *)
Definition markLink (currentPath : string) (link : element) : element :=
  let linkPath := getAttribute "href" link in
  if includes currentPath (toString linkPath) && negb (bool_decide (linkPath = Some "/"))
  then set_classList (ClassList.add "active") link
  else set_classList (ClassList.remove "active") link.

(** Lines 229-242. *)
Definition setActiveLink (s : state) : state :=
  let currentPath := pathname s in
  let navLinks := querySelectorAll (SelDescendant (SelClass "nav") (SelTag "a")) (document s) in
  forEach (λ link, set_document (update (markLink currentPath) link)) navLinks s.

(** Lines 247-257. *)
Definition setupMobileMenu (s : state) : state :=
  match getElementById "mobile-menu-toggle" (document s),
        querySelector (SelClass "nav") (document s) with
  | Some menuToggle, Some nav =>
      addEventListener (Element menuToggle) "click" (MobileMenuClick menuToggle nav) s
  | _, _ => s
  end.

(** The listener of [setupMobileMenu], lines 253-256: first [nav], then
    [menuToggle]. *)
Definition onMobileMenuClick (menuToggle nav : ref) (s : state) : state :=
  let s1 := set_document (update (set_classList (ClassList.toggle "active")) nav) s in
  set_document (update (set_classList (ClassList.toggle "active")) menuToggle) s1.

End Navigation.

(** ** Utilities (lines 286-343) *)

Module Utils.

(** The declarations of the [cssText] assigned on line 299. *)
Definition buttonStyle : gmap string string :=
  list_to_map [("position", "absolute"); ("top", "8px"); ("right", "8px");
               ("padding", "4px 8px"); ("font-size", "0.8rem");
               ("background", "var(--accent-green)"); ("color", "white");
               ("border", "none"); ("border-radius", "4px"); ("cursor", "pointer")].

(** The element built on lines 295-299, as a child of [pre]. *)
Definition copyButton (pre : ref) (d : dom) : element :=
  {| tagName := "button"; attributes := ∅; classList := ["copy-code-btn"];
     style := buttonStyle; childNodes := [TextNode "Copy"];
     hostname := ""; parentElement := Some pre; isConnected := connected d pre |}.

(** The body of the [forEach] callback, lines 294-312. A code block that
    matched [pre code] has a parent; without one line 301 would throw. *)
Definition addCopyButton (codeBlock : ref) (s : state) : state :=
  match nodes (document s) !! codeBlock ≫= parentElement with
  | None => s
  | Some pre =>
      let button : ref := length (nodes (document s)) in
      let s1 := set_document (update (set_style <["position" := "relative"]>) pre) s in
      let s2 := set_document (λ d, appendChild pre (copyButton pre d) d) s1 in
      addEventListener (Element button) "click" (CopyClick codeBlock button) s2
  end.

(** Lines 290-314. *)
Definition addCopyButtonsToCodeBlocks (s : state) : state :=
  let codeBlocks := querySelectorAll (SelDescendant (SelTag "pre") (SelTag "code")) (document s) in
  forEach addCopyButton codeBlocks s.

(** The click listener, lines 304-312: the text of the code block is read
    at that moment, the write is started and its promise is left pending
    with the [then] callback. *)
Definition onCopyClick (codeBlock button : ref) (s : state) : state :=
  match nodes (document s) !! codeBlock with
  | None => s
  | Some _ =>
      set_clipboardWrites
        (λ ws, ws ++ [{| cw_text := textContent (document s) codeBlock;
                         cw_then := CopyDone button |}]) s
  end.

(** The [then] callback, lines 306-311. *)
Definition onCopyDone (button : ref) (s : state) : state :=
  let s1 := set_document (assign_textContent "Copied!" button) s in
  set_timers (λ ts, ts ++ [{| t_callback := CopyRevert button; t_delay := 2000 |}]) s1.

(** The [setTimeout] callback, lines 308-310. *)
Definition onCopyRevert (button : ref) (s : state) : state :=
  set_document (assign_textContent "Copy" button) s.

(** The body of the [forEach] callback, lines 323-326. *)
Definition markExternal (pageHost : string) (link : element) : element :=
  if negb (includes (hostname link) pageHost)
  then setAttribute "rel" "noopener noreferrer" (setAttribute "target" "_blank" link)
  else link.

(** Lines 319-328. *)
Definition setupExternalLinks (s : state) : state :=
  let links := querySelectorAll (SelAnd (SelTag "a") (SelAttrPrefix "href" "http")) (document s) in
  forEach (λ link s', set_document (update (markExternal (location_hostname s')) link) s')
          links s.

(** The body of the [forEach] callback of [enhanceManualImages], lines
    337-340. [img.parentElement] is [null] for a node without parent; the
    element above [body] is outside the store, so [body] counts as having
    none. *)
Definition wrapManualImage (img : ref) (d : dom) : dom :=
  match nodes d !! img ≫= parentElement with
  | None => d
  | Some parent =>
      match nodes d !! parent with
      | None => d
      | Some e =>
          if negb (ClassList.contains "manual-image-wrapper" (classList e))
          then update (set_classList (ClassList.add "manual-image-wrapper")) parent d
          else d
      end
  end.

(** Lines 333-342. *)
Definition enhanceManualImages (s : state) : state :=
  let manualImages := querySelectorAll (SelClass "manual-image") (document s) in
  forEach (λ img, set_document (wrapManualImage img)) manualImages s.

End Utils.

(** ** Running the script's callbacks *)

Inductive event :=
| Click
| Change (e_matches : bool).

Definition event_type (e : event) : string :=
  match e with Click => "click" | Change _ => "change" end.

Definition run_handler (h : handler) (e : event) (s : state) : state :=
  match h with
  | SystemThemeChange =>
      match e with
      | Change m => Theme.onSystemThemeChange m s
      | Click => s
      end
  | ThemeToggleClick => Theme.toggle s
  | LangLinkClick link => Language.onLangLinkClick link s
  | MobileMenuClick menuToggle nav => Navigation.onMobileMenuClick menuToggle nav s
  | CopyClick codeBlock button => Utils.onCopyClick codeBlock button s
  end.

Definition run_callback (c : callback) (s : state) : state :=
  match c with
  | CopyDone button => Utils.onCopyDone button s
  | CopyRevert button => Utils.onCopyRevert button s
  end.

Global Instance target_eq_dec : EqDecision target.
Proof. solve_decision. Defined.

(** The handlers registered on [t] itself for events of type [type], in
    the order of registration. *)
Definition listeners_on (t : target) (type : string) (s : state) : list handler :=
  l_handler <$> filter (λ l, l_target l = t ∧ l_type l = type) (listeners s).

(** The elements above [r], nearest first. The parent of a node stands
    before it in the store (the parsed elements are in document order and
    a created element takes the next free position), so the walk goes down
    in the positions; it ends at a node without parent, and at a parent
    pointer that would lead up in the store, which no document has. *)
Fixpoint ancestors (d : dom) (fuel : nat) (r : ref) : list ref :=
  match fuel with
  | 0 => []
  | S fuel' =>
      match nodes d !! r ≫= parentElement with
      | Some p => if decide (p < r)%nat then p :: ancestors d fuel' p else []
      | None => []
      end
  end.

(** The way of an event fired on [t]: an event on an element bubbles from
    it to its parent and on up to [body] (the script listens on elements
    for clicks only, and clicks bubble; nothing of the script listens
    above [body]); the media query list stands alone. No listener of the
    script stops the propagation. *)
Definition event_path (t : target) (d : dom) : list target :=
  match t with
  | Element r => Element r :: (Element <$> ancestors d r r)
  | DarkModeQuery => [DarkModeQuery]
  end.

(** The handlers an event of type [type] fired on [t] runs: those on [t],
    then those on its parent, and so on, on each target in the order of
    registration. *)
Definition handlers_for (t : target) (type : string) (s : state) : list handler :=
  event_path t (document s) ≫= (λ t', listeners_on t' type s).

(** An event [e] fired on [t]: the listeners on its way at that moment run
    one after the other. *)
Definition dispatch (t : target) (e : event) (s : state) : state :=
  forEach (λ h, run_handler h e) (handlers_for t (event_type e) s) s.

(** A click on the element [r]. *)
Definition click (r : ref) (s : state) : state := dispatch (Element r) Click s.

(** The operating system switches its colour scheme. *)
Definition systemThemeChanged (dark : bool) (s : state) : state :=
  dispatch DarkModeQuery (Change dark) (set_prefersDark dark s).

(** The [i]-th pending clipboard write settles: fulfilled ([ok]) or
    rejected. Only the success callback was attached, so a rejection runs
    no code of the script. *)
Definition clipboardSettles (i : nat) (ok : bool) (s : state) : state :=
  match clipboardWrites s !! i with
  | None => s
  | Some w =>
      let s1 := set_clipboardWrites (delete i) s in
      if ok then run_callback (cw_then w) s1 else s1
  end.

(** The [i]-th timer runs out. *)
Definition timerFires (i : nat) (s : state) : state :=
  match timers s !! i with
  | None => s
  | Some t => run_callback (t_callback t) (set_timers (delete i) s)
  end.

(** ** Calls into [Language]

    The methods of [Language] that write to storage or navigate, as the
    page and its listeners call them; a history is a list of such calls. *)
Inductive language_call :=
| CallSave (lang : string)
| CallSwitch (lang : string)
| CallDetectAndSave
| CallInit
| CallLangLinkClick (link : ref).

Definition run_language_call (c : language_call) (s : state) : state :=
  match c with
  | CallSave lang => Language.save lang s
  | CallSwitch lang => Language.switch lang s
  | CallDetectAndSave => Language.detectAndSaveCurrentLanguage s
  | CallInit => Language.init s
  | CallLangLinkClick link => Language.onLangLinkClick link s
  end.

Definition run_language_calls (calls : list language_call) (s : state) : state :=
  forEach run_language_call calls s.

(** The URL [switch] builds for [lang] on the page at [path]. *)
Definition language_url (path lang : string) : string :=
  (if includes path "/jwtime/" then "/jwtime/" else "/")
    +:+ lang +:+ "/" +:+ or_default (last_part (split "/" path)) "index.html".

(** What one call can do to the stored language, the location and the
    requested navigation. *)
Definition language_step_ok (s s' : state) : Prop :=
  pathname s' = pathname s
  ∧ (localStorage s' = localStorage s
     ∨ ∃ g, g ∈ Language.SUPPORTED ∧ localStorage s' = <[Language.STORAGE_KEY := g]> (localStorage s))
  ∧ (navigation s' = navigation s
     ∨ ∃ g, g ∈ Language.SUPPORTED ∧ navigation s' = Some (language_url (pathname s) g)).

(** ** Observations *)

(** The anchors [setupExternalLinks] visits, the links [setActiveLink]
    visits and the code blocks that get a button. *)
Definition httpAnchors (d : dom) : list ref :=
  querySelectorAll (SelAnd (SelTag "a") (SelAttrPrefix "href" "http")) d.

Definition navLinks (d : dom) : list ref :=
  querySelectorAll (SelDescendant (SelClass "nav") (SelTag "a")) d.

Definition codeBlocks (d : dom) : list ref :=
  querySelectorAll (SelDescendant (SelTag "pre") (SelTag "code")) d.

(** Does the selector name the class [c]? *)
Fixpoint mentions_class (c : string) (sel : selector) : bool :=
  match sel with
  | SelClass c' => bool_decide (c' = c)
  | SelAnd s1 s2 | SelDescendant s1 s2 => mentions_class c s1 || mentions_class c s2
  | _ => false
  end.

(** Does the element behind [r] carry the class [c]? *)
Definition has_class (c : string) (r : ref) (s : state) : bool :=
  match nodes (document s) !! r with
  | Some e => ClassList.contains c (classList e)
  | None => false
  end.

(** Do the menu toggle [m] and the navigation container [n] agree on the
    class "active"? *)
Definition markers_agree (m n : ref) (s : state) : bool :=
  eqb (has_class "active" m s) (has_class "active" n s).

(** [k] clicks on the element [r], one after the other. *)
Fixpoint clicks (k : nat) (r : ref) (s : state) : state :=
  match k with
  | 0 => s
  | S k' => click r (clicks k' r s)
  end.

(** The listener [addCopyButtonsToCodeBlocks] registers for its [i]-th code
    block [c] when the document had [n0] nodes before. *)
Definition copyListener (n0 i : nat) (c : ref) : listener :=
  {| l_target := Element (n0 + i); l_type := "click"; l_handler := CopyClick c (n0 + i) |}.

(** The text shown on the element behind [r]. *)
Definition label (r : ref) (s : state) : option string :=
  match nodes (document s) !! r with
  | Some _ => Some (textContent (document s) r)
  | None => None
  end.

(** The element behind [b] is in the store, is not the theme toggle, and
    holds the one text [t]. *)
Definition plain_button (t : string) (b : ref) (d : dom) : Prop :=
  ∃ e, nodes d !! b = Some e
       ∧ getAttribute "id" e ≠ Some "theme-toggle"
       ∧ childNodes e = [TextNode t].

(** The images [enhanceManualImages] visits and the links [Language.init]
    binds. *)
Definition manualImages (d : dom) : list ref :=
  querySelectorAll (SelClass "manual-image") d.

Definition langLinks (d : dom) : list ref :=
  querySelectorAll (SelAttr "data-lang") d.

(** The theme that follows the system preference. *)
Definition systemTheme (dark : bool) : string :=
  if dark then Theme.DARK else Theme.LIGHT.

(** The class names on [document.body]. *)
Definition body_classes (s : state) : list string := classList (body (document s)).

(** Exactly one of the two theme classes is on [body]. *)
Definition one_theme_class (s : state) : bool :=
  xorb (ClassList.contains "dark-theme" (body_classes s))
       (ClassList.contains "light-theme" (body_classes s)).

(** ** A sample page

    A small document of the kind the script runs on, used to evaluate the
    model on concrete inputs. *)

Module Sample.

Definition node (tag : string) (attrs : list (string * string)) (classes : list string)
    (children : list child) (host : string) (parent : option ref) : element :=
  {| tagName := tag; attributes := list_to_map attrs; classList := classes;
     style := ∅; childNodes := children; hostname := host;
     parentElement := parent; isConnected := true |}.

Definition manual_link : element :=
  node "a" [("href", "/en/manual.html")] [] [TextNode "Manual"] "jwtime.example" (Some 3).

Definition home_link : element :=
  node "a" [("href", "/")] ["active"] [TextNode "Home"] "jwtime.example" (Some 3).

Definition faq_link : element :=
  node "a" [("href", "https://docs.jwtime.example/faq")] [] [TextNode "FAQ"]
       "docs.jwtime.example" (Some 3).

Definition source_link : element :=
  node "a" [("href", "https://github.com/JWTime/jwtime")] [] [TextNode "Source"]
       "github.com" (Some 0).

Definition news_link : element :=
  node "a" [("href", "http://jwtime.example/en/news.html")] [] [TextNode "News"]
       "jwtime.example" (Some 0).

Definition page : dom :=
  {| body := node "body" [] []
                  [ElementNode 1; ElementNode 2; ElementNode 3; ElementNode 7;
                   ElementNode 9; ElementNode 10; ElementNode 11] "" None;
     elements :=
       [ node "button" [("id", "theme-toggle")] [] [] "" (Some 0);               (* 1 *)
         node "button" [("id", "mobile-menu-toggle")] [] [] "" (Some 0);         (* 2 *)
         node "nav" [] ["nav"]
              [ElementNode 4; ElementNode 5; ElementNode 6] "" (Some 0);         (* 3 *)
         manual_link;                                                            (* 4 *)
         home_link;                                                              (* 5 *)
         faq_link;                                                               (* 6 *)
         node "pre" [] [] [ElementNode 8] "" (Some 0);                           (* 7 *)
         node "code" [] [] [TextNode "npm install"] "" (Some 7);                 (* 8 *)
         node "a" [("href", "/it/manual.html"); ("data-lang", "it")] []
              [TextNode "Italiano"] "jwtime.example" (Some 0);                   (* 9 *)
         source_link;                                                            (* 10 *)
         news_link ] |}.                                                         (* 11 *)

(** The same page delivered with the menu already open on the container
    only. *)
Definition page_nav_open : dom :=
  update (set_classList (λ _, ["nav"; "active"])) 3 page.

Definition start_nav_open (path : string) : state :=
  {| document := page_nav_open; localStorage := ∅; pathname := path;
     location_hostname := "jwtime.example"; navigation := None; prefersDark := false;
     listeners := []; clipboardWrites := []; timers := [] |}.

(** The same page with the "Home" anchor stripped of its attributes. *)
Definition page_bare_anchor : dom :=
  update (set_attributes (λ _, ∅)) 5 page.

Definition start_bare_anchor (path : string) : state :=
  {| document := page_bare_anchor; localStorage := ∅; pathname := path;
     location_hostname := "jwtime.example"; navigation := None; prefersDark := false;
     listeners := []; clipboardWrites := []; timers := [] |}.







(** A page of the manual: two images in one block, a third one in a block
    that is marked as wrapper already. *)
Definition manual_page : dom :=
  {| body := node "body" [] [] [ElementNode 1; ElementNode 4] "" None;
     elements :=
       [ node "div" [] [] [ElementNode 2; ElementNode 3] "" (Some 0);            (* 1 *)
         node "img" [("src", "img/start.png")] ["manual-image"] [] "" (Some 1);  (* 2 *)
         node "img" [("src", "img/stop.png")] ["manual-image"] [] "" (Some 1);   (* 3 *)
         node "p" [] ["manual-image-wrapper"] [ElementNode 5] "" (Some 0);       (* 4 *)
         node "img" [("src", "img/export.png")] ["manual-image"] [] "" (Some 4) ] |}.

Definition start_manual : state :=
  {| document := manual_page; localStorage := ∅; pathname := "/en/manual.html";
     location_hostname := "jwtime.example"; navigation := None; prefersDark := false;
     listeners := []; clipboardWrites := []; timers := [] |}.

(** The page opened from a file: the location has no host. *)
Definition start_from_file : state :=
  {| document := page; localStorage := ∅; pathname := "/C:/site/en/index.html";
     location_hostname := ""; navigation := None; prefersDark := false;
     listeners := []; clipboardWrites := []; timers := [] |}.

Definition start (path : string) : state :=
  {| document := page; localStorage := ∅; pathname := path;
     location_hostname := "jwtime.example"; navigation := None; prefersDark := false;
     listeners := []; clipboardWrites := []; timers := [] |}.

End Sample.

(** * Properties *)

(** ** Class lists *)

Section ClassListFacts.

Implicit Types (c : string) (l : list string).

Lemma contains_true c l : ClassList.contains c l = true ↔ c ∈ l.
Proof. unfold ClassList.contains. by rewrite bool_decide_eq_true. Qed.

Lemma contains_false c l : ClassList.contains c l = false ↔ c ∉ l.
Proof. unfold ClassList.contains. by rewrite bool_decide_eq_false. Qed.

Lemma elem_of_add c c' l : c ∈ ClassList.add c' l ↔ c ∈ l ∨ c = c'.
Proof.
  unfold ClassList.add. destruct (ClassList.contains c' l) eqn:E.
  - apply contains_true in E. split; [by left | intros [?| ->]; done].
  - rewrite elem_of_app, list_elem_of_singleton. done.
Qed.

Lemma elem_of_remove c c' l : c ∈ ClassList.remove c' l ↔ c ∈ l ∧ c ≠ c'.
Proof. unfold ClassList.remove. rewrite list_elem_of_filter. tauto. Qed.

Lemma contains_add c c' l :
  ClassList.contains c (ClassList.add c' l) = ClassList.contains c l || bool_decide (c = c').
Proof.
  apply eq_true_iff_eq. rewrite contains_true, elem_of_add, orb_true_iff.
  by rewrite contains_true, bool_decide_eq_true.
Qed.

Lemma contains_remove c c' l :
  ClassList.contains c (ClassList.remove c' l) = ClassList.contains c l && negb (bool_decide (c = c')).
Proof.
  apply eq_true_iff_eq. rewrite contains_true, elem_of_remove, andb_true_iff.
  by rewrite contains_true, negb_true_iff, bool_decide_eq_false.
Qed.

Lemma contains_toggle c c' l :
  ClassList.contains c (ClassList.toggle c' l) =
  if bool_decide (c = c') then negb (ClassList.contains c l) else ClassList.contains c l.
Proof.
  unfold ClassList.toggle. destruct (ClassList.contains c' l) eqn:E.
  - rewrite contains_remove. case_bool_decide; subst; [by rewrite E | by rewrite andb_true_r].
  - rewrite contains_add. case_bool_decide; subst; [by rewrite E | by rewrite orb_false_r].
Qed.

Lemma add_idemp c l : ClassList.add c (ClassList.add c l) = ClassList.add c l.
Proof.
  unfold ClassList.add at 1. by rewrite contains_add, bool_decide_eq_true_2, orb_true_r.
Qed.


End ClassListFacts.

(** ** The node store *)

Section DomFacts.

Implicit Types (d : dom) (f : element → element) (r : ref).

Lemma nodes_update f r d : nodes (update f r d) = alter f r (nodes d).
Proof. by destruct r. Qed.

Lemma length_nodes_update f r d : length (nodes (update f r d)) = length (nodes d).
Proof. by rewrite nodes_update, length_alter. Qed.

Lemma lookup_update f r r' d :
  nodes (update f r d) !! r' = if decide (r = r') then f <$> nodes d !! r' else nodes d !! r'.
Proof.
  rewrite nodes_update. case_decide as E.
  - subst. apply list_lookup_alter_eq.
  - by apply list_lookup_alter_ne.
Qed.

Lemma nodes_forEach_update f (l : list ref) d :
  nodes (forEach (update f) l d) = foldl (λ acc r, alter f r acc) (nodes d) l.
Proof.
  unfold forEach. revert d. induction l as [|r l IH]; intros d; [done|].
  cbn [foldl]. by rewrite IH, nodes_update.
Qed.

(** A [forEach] over distinct references changes exactly the listed nodes,
    each once. *)
Lemma lookup_forEach_update f (l : list ref) d r :
  NoDup l →
  nodes (forEach (update f) l d) !! r =
  if decide (r ∈ l) then f <$> nodes d !! r else nodes d !! r.
Proof.
  unfold forEach. revert d. induction l as [|x l IH]; intros d Hnd; cbn [foldl].
  - destruct (decide (r ∈ [])) as [Hin|]; [by apply elem_of_nil in Hin | done].
  - apply NoDup_cons in Hnd as [Hx Hnd]. rewrite IH by done. rewrite !lookup_update.
    destruct (decide (r ∈ x :: l)) as [Hin'|Hin'], (decide (r ∈ l)) as [Hin|Hin],
             (decide (x = r)) as [Heq|Hne]; subst; try done.
    + apply elem_of_cons in Hin' as [->|?]; done.
    + exfalso. apply Hin'. by apply list_elem_of_further.
    + exfalso. apply Hin'. apply list_elem_of_here.
Qed.

Lemma length_nodes_forEach_update f (l : list ref) d :
  length (nodes (forEach (update f) l d)) = length (nodes d).
Proof.
  unfold forEach. revert d. induction l as [|x l IH]; intros d; [done|].
  cbn [foldl]. by rewrite IH, length_nodes_update.
Qed.

Lemma lookup_detachChildren r d (x : ref) :
  nodes (detachChildren r d) !! x = nodes d !! x
  ∨ nodes (detachChildren r d) !! x = detached r <$> nodes d !! x.
Proof.
  unfold detachChildren. rewrite lookup_forEach_update by apply NoDup_filter, NoDup_seq.
  case_decide; auto.
Qed.

Lemma length_nodes_detachChildren r d :
  length (nodes (detachChildren r d)) = length (nodes d).
Proof. apply length_nodes_forEach_update. Qed.

Lemma lookup_detachChildren_is_Some r d (x : ref) :
  is_Some (nodes (detachChildren r d) !! x) ↔ is_Some (nodes d !! x).
Proof. by rewrite !lookup_lt_is_Some, length_nodes_detachChildren. Qed.

(** Taking out the children of [r] takes the parent from the children of
    [r] and from no other node. *)
Lemma parent_detachChildren r d (x p : ref) :
  p ≠ r →
  nodes (detachChildren r d) !! x ≫= parentElement = Some p
  ↔ nodes d !! x ≫= parentElement = Some p.
Proof.
  intros Hp. destruct (lookup_detachChildren r d x) as [-> | ->]; [done|].
  destruct (nodes d !! x) as [e|]; [|done]. cbn. unfold detached.
  case_decide as E; cbn; [|done]. rewrite E. split; [done | congruence].
Qed.

(** The element whose children are replaced, afterwards. *)
Lemma lookup_replace_children (cs : list child) r d :
  is_Some (nodes d !! r) →
  ∃ e, nodes (update (set_childNodes (λ _, cs)) r (detachChildren r d)) !! r = Some e
       ∧ childNodes e = cs.
Proof.
  intros H. apply (lookup_detachChildren_is_Some r d r) in H as [e He].
  rewrite lookup_update, decide_True, He by done. by eexists.
Qed.

Lemma length_nodes_assign_textContent (t : string) r d :
  length (nodes (assign_textContent t r d)) = length (nodes d).
Proof.
  unfold assign_textContent. by rewrite length_nodes_update, length_nodes_detachChildren.
Qed.

Lemma lookup_assign_textContent_is_Some (t : string) r d (x : ref) :
  is_Some (nodes (assign_textContent t r d) !! x) ↔ is_Some (nodes d !! x).
Proof. by rewrite !lookup_lt_is_Some, length_nodes_assign_textContent. Qed.

Lemma append_empty_r (t : string) : t +:+ "" = t.
Proof.
  induction t as [|a t IH]; [done|].
  change (String a (t +:+ "") = String a t). by f_equal.
Qed.

(** The text of an element that holds one text node, or nothing. *)
Lemma textContent_text d r (e : element) (t : string) :
  nodes d !! r = Some e → childNodes e = [TextNode t] → textContent d r = t.
Proof.
  intros He Hc. unfold textContent, nodes at 1. cbn [length textContent_below].
  rewrite He, Hc. cbn [foldr]. apply append_empty_r.
Qed.

Lemma textContent_empty d r (e : element) :
  nodes d !! r = Some e → childNodes e = [] → textContent d r = "".
Proof.
  intros He Hc. unfold textContent, nodes at 1. cbn [length textContent_below].
  by rewrite He, Hc.
Qed.

(** The text depends on the lists of children only. *)
Lemma textContent_agree d d' r :
  length (nodes d') = length (nodes d) →
  (∀ x, childNodes <$> nodes d' !! x = childNodes <$> nodes d !! x) →
  textContent d' r = textContent d r.
Proof.
  intros Hlen H. unfold textContent. rewrite Hlen.
  generalize (length (nodes d)). intros fuel. revert r.
  induction fuel as [|fuel IH]; intros r; [done|]. cbn [textContent_below].
  specialize (H r).
  destruct (nodes d' !! r) as [e'|], (nodes d !! r) as [e|]; try done.
  injection H as ->. induction (childNodes e) as [|ch l IHl]; [done|].
  cbn [foldr]. rewrite IHl. by destruct ch; rewrite ?IH.
Qed.

(** Reading [textContent] after writing it. *)
Lemma textContent_assign_textContent (t : string) r d :
  is_Some (nodes d !! r) → textContent (assign_textContent t r d) r = t.
Proof.
  intros H. unfold assign_textContent.
  destruct (lookup_replace_children (if decide (t = "") then [] else [TextNode t]) r d H)
    as (e & He & Hc).
  destruct (decide (t = "")) as [->|Hne].
  - by apply (textContent_empty _ _ e).
  - by apply (textContent_text _ _ e).
Qed.

(** Updates that leave the class list alone leave the one of [body] alone. *)
Lemma classList_body_update f r d :
  (∀ e, classList (f e) = classList e) →
  classList (body (update f r d)) = classList (body d).
Proof. intros Hf. destruct r; simpl; [apply Hf | done]. Qed.

Lemma classList_body_forEach_update f (l : list ref) d :
  (∀ e, classList (f e) = classList e) →
  classList (body (forEach (update f) l d)) = classList (body d).
Proof.
  intros Hf. unfold forEach. revert d. induction l as [|x l IH]; intros d; [done|].
  cbn [foldl]. by rewrite IH, classList_body_update.
Qed.

Lemma NoDup_querySelectorAll sel d : NoDup (querySelectorAll sel d).
Proof. unfold querySelectorAll. apply NoDup_filter, NoDup_seq. Qed.

Lemma elem_of_querySelectorAll sel d r :
  r ∈ querySelectorAll sel d ↔ connected d r = true ∧ matches d sel r = true.
Proof.
  unfold querySelectorAll. rewrite list_elem_of_filter, elem_of_seq.
  rewrite andb_True, !Is_true_true. split; [tauto|].
  intros [Hc Hm]. split; [done|]. split; [lia|]. simpl.
  unfold connected in Hc. destruct (nodes d !! r) eqn:E; [|done].
  by apply lookup_lt_Some in E.
Qed.

End DomFacts.

(** ** Theme *)

Section ThemeFacts.

Implicit Types (s : state) (theme : string).

(** What [applyTheme] does to the class list of [body]. *)
Lemma applyTheme_body_classes theme s :
  body_classes (Theme.applyTheme theme s) =
  let cleared := ClassList.remove "light-theme" (ClassList.remove "dark-theme" (body_classes s)) in
  if decide (theme = Theme.DARK) then ClassList.add "dark-theme" cleared
  else if decide (theme = Theme.LIGHT) then ClassList.add "light-theme" cleared
  else cleared.
Proof. unfold Theme.applyTheme, body_classes. by repeat case_decide. Qed.

Lemma applyTheme_prefersDark theme s :
  prefersDark (Theme.applyTheme theme s) = prefersDark s.
Proof. unfold Theme.applyTheme. by repeat case_decide. Qed.

Lemma contains_dark_applyTheme theme s :
  ClassList.contains "dark-theme" (body_classes (Theme.applyTheme theme s)) =
  bool_decide (theme = Theme.DARK).
Proof.
  rewrite applyTheme_body_classes. cbv zeta.
  destruct (decide (theme = Theme.DARK)) as [->|Hd].
  - by rewrite contains_add, bool_decide_eq_true_2, orb_true_r.
  - rewrite (bool_decide_eq_false_2 _ Hd).
    case_decide; rewrite ?contains_add, !contains_remove;
      rewrite (bool_decide_eq_true_2 ("dark-theme" = "dark-theme")) by done;
      simpl; by rewrite ?andb_false_r.
Qed.

Lemma contains_light_applyTheme theme s :
  ClassList.contains "light-theme" (body_classes (Theme.applyTheme theme s)) =
  bool_decide (theme = Theme.LIGHT).
Proof.
  rewrite applyTheme_body_classes. cbv zeta.
  destruct (decide (theme = Theme.DARK)) as [->|Hd].
  - rewrite contains_add, !contains_remove.
    rewrite (bool_decide_eq_true_2 ("light-theme" = "light-theme")) by done.
    simpl. by rewrite andb_false_r.
  - destruct (decide (theme = Theme.LIGHT)) as [->|Hl].
    + by rewrite contains_add, bool_decide_eq_true_2, orb_true_r.
    + rewrite (bool_decide_eq_false_2 _ Hl), !contains_remove.
      rewrite (bool_decide_eq_true_2 ("light-theme" = "light-theme")) by done.
      simpl. by rewrite andb_false_r.
Qed.

Lemma getCurrentTheme_ext s s' :
  body_classes s = body_classes s' → prefersDark s = prefersDark s' →
  Theme.getCurrentTheme s = Theme.getCurrentTheme s'.
Proof. unfold Theme.getCurrentTheme, body_classes. by intros -> ->. Qed.

Lemma getCurrentTheme_cases s :
  Theme.getCurrentTheme s = Theme.DARK ∨ Theme.getCurrentTheme s = Theme.LIGHT.
Proof.
  unfold Theme.getCurrentTheme.
  repeat match goal with |- context [if ?b then _ else _] => destruct b end; auto.
Qed.

Lemma updateToggleButton_body_classes theme s :
  body_classes (Theme.updateToggleButton theme s) = body_classes s.
Proof.
  unfold Theme.updateToggleButton, body_classes.
  destruct (getElementById _ _) as [btn|]; [|done]. simpl.
  unfold Theme.assign_innerHTML, detachChildren.
  rewrite !classList_body_update by done.
  rewrite classList_body_forEach_update; [done|].
  intros e. unfold detached. by case_decide.
Qed.

Lemma updateToggleButton_prefersDark theme s :
  prefersDark (Theme.updateToggleButton theme s) = prefersDark s.
Proof. unfold Theme.updateToggleButton. by destruct (getElementById _ _). Qed.

Lemma getCurrentTheme_applyTheme theme s :
  theme = Theme.DARK ∨ theme = Theme.LIGHT →
  Theme.getCurrentTheme (Theme.applyTheme theme s) = theme.
Proof.
  intros Hv. unfold Theme.getCurrentTheme. fold (body_classes (Theme.applyTheme theme s)).
  rewrite contains_dark_applyTheme, contains_light_applyTheme.
  destruct Hv as [-> | ->]; reflexivity.
Qed.

Lemma getCurrentTheme_toggle s :
  Theme.getCurrentTheme (Theme.toggle s) =
  if decide (Theme.getCurrentTheme s = Theme.DARK) then Theme.LIGHT else Theme.DARK.
Proof.
  unfold Theme.toggle. set (new := if decide _ then _ else _).
  rewrite (getCurrentTheme_ext _ (Theme.applyTheme new s)).
  - apply getCurrentTheme_applyTheme. unfold new. case_decide; auto.
  - by rewrite updateToggleButton_body_classes.
  - by rewrite updateToggleButton_prefersDark.
Qed.

End ThemeFacts.

(** ** Language *)

Section LanguageFacts.

Implicit Types (s : state) (lang : string).

Lemma array_includes_true (l : list string) (x : string) :
  array_includes l x = true ↔ x ∈ l.
Proof. unfold array_includes. by rewrite bool_decide_eq_true. Qed.

Lemma save_supported lang s :
  lang ∈ Language.SUPPORTED → Language.save lang s = setItem Language.STORAGE_KEY lang s.
Proof. intros H. unfold Language.save. by rewrite (proj2 (array_includes_true _ _) H). Qed.

Lemma save_unsupported lang s : lang ∉ Language.SUPPORTED → Language.save lang s = s.
Proof.
  intros H. unfold Language.save.
  destruct (array_includes _ _) eqn:E; [|done]. by apply array_includes_true in E.
Qed.

Lemma switch_supported lang s :
  lang ∈ Language.SUPPORTED →
  Language.switch lang s =
  set_href (language_url (pathname s) lang) (setItem Language.STORAGE_KEY lang s).
Proof.
  intros H. unfold Language.switch.
  rewrite (proj2 (array_includes_true _ _) H). simpl. by rewrite save_supported.
Qed.

Lemma switch_unsupported lang s : lang ∉ Language.SUPPORTED → Language.switch lang s = s.
Proof.
  intros H. unfold Language.switch.
  destruct (array_includes _ _) eqn:E; [|done]. by apply array_includes_true in E.
Qed.

(** The group of the pattern only ever holds one of its alternatives. *)
Lemma match_here_alternative (p g : string) :
  Language.match_here p = Some g → g ∈ Language.PATTERN_ALTERNATIVES.
Proof.
  unfold Language.match_here. destruct p as [|c rest]; [done|].
  destruct (decide (c = "/"%char)) as [->|Hc].
  - intros H. apply head_Some_elem_of, list_elem_of_filter in H. tauto.
  - destruct c as [[] [] [] [] [] [] [] []]; done.
Qed.

Lemma match_lang_unfold (p : string) :
  Language.match_lang p =
  match Language.match_here p with
  | Some g => Some g
  | None => match p with
            | EmptyString => None
            | String _ rest => Language.match_lang rest
            end
  end.
Proof. by destruct p. Qed.

Lemma match_lang_alternative (p g : string) :
  Language.match_lang p = Some g → g ∈ Language.PATTERN_ALTERNATIVES.
Proof.
  induction p as [|c rest IH]; rewrite match_lang_unfold.
  - done.
  - destruct (Language.match_here (String c rest)) as [g'|] eqn:E.
    + intros [= <-]. by apply match_here_alternative in E.
    + apply IH.
Qed.

(** The pattern and the list [SUPPORTED] name the same languages. *)
Lemma pattern_alternatives_supported : Language.PATTERN_ALTERNATIVES = Language.SUPPORTED.
Proof. reflexivity. Qed.

Lemma detect_cases s :
  Language.detectAndSaveCurrentLanguage s = s
  ∨ ∃ g, g ∈ Language.SUPPORTED ∧ Language.match_lang (pathname s) = Some g
         ∧ Language.detectAndSaveCurrentLanguage s = setItem Language.STORAGE_KEY g s.
Proof.
  unfold Language.detectAndSaveCurrentLanguage.
  destruct (Language.match_lang (pathname s)) as [g|] eqn:E; [|by left].
  right. exists g. apply match_lang_alternative in E.
  rewrite pattern_alternatives_supported in E. by rewrite save_supported.
Qed.

Lemma save_step_ok lang s : language_step_ok s (Language.save lang s).
Proof.
  destruct (decide (lang ∈ Language.SUPPORTED)) as [H|H].
  - rewrite save_supported by done. repeat split; [right; by exists lang | by left].
  - rewrite save_unsupported by done. repeat split; by left.
Qed.

Lemma switch_step_ok lang s : language_step_ok s (Language.switch lang s).
Proof.
  destruct (decide (lang ∈ Language.SUPPORTED)) as [H|H].
  - rewrite switch_supported by done. repeat split; right; by exists lang.
  - rewrite switch_unsupported by done. repeat split; by left.
Qed.

Lemma detect_step_ok s : language_step_ok s (Language.detectAndSaveCurrentLanguage s).
Proof.
  destruct (detect_cases s) as [-> | (g & Hg & _ & ->)].
  - repeat split; by left.
  - repeat split; [right; by exists g | by left].
Qed.

Lemma forEach_addEventListener_fields {A} (t : A → target) (h : A → handler) (l : list A) s :
  let s' := forEach (λ x, addEventListener (t x) "click" (h x)) l s in
  localStorage s' = localStorage s ∧ pathname s' = pathname s
  ∧ navigation s' = navigation s ∧ document s' = document s.
Proof.
  cbv zeta. unfold forEach. revert s. induction l as [|x l IH]; intros s; [done|].
  cbn [foldl]. destruct (IH (addEventListener (t x) "click" (h x) s)) as (-> & -> & -> & ->).
  done.
Qed.

Lemma init_step_ok s : language_step_ok s (Language.init s).
Proof.
  unfold Language.init.
  set (s1 := forEach _ _ s).
  destruct (forEach_addEventListener_fields Element LangLinkClick
              (querySelectorAll (SelAttr "data-lang") (document s)) s) as (Hl & Hp & Hn & _).
  fold s1 in Hl, Hp, Hn.
  destruct (detect_step_ok s1) as (Hp' & Hl' & Hn').
  unfold language_step_ok. rewrite Hp', Hp. rewrite Hl, Hn, Hp in *. done.
Qed.

Lemma run_language_call_ok (c : language_call) s : language_step_ok s (run_language_call c s).
Proof.
  destruct c as [lang|lang| | |link]; simpl.
  - apply save_step_ok.
  - apply switch_step_ok.
  - apply detect_step_ok.
  - apply init_step_ok.
  - unfold Language.onLangLinkClick.
    destruct (_ ≫= _); [apply switch_step_ok | repeat split; by left].
Qed.

Lemma run_language_calls_ok (calls : list language_call) s :
  let s' := run_language_calls calls s in
  pathname s' = pathname s
  ∧ (∀ v, Language.get s' = Some v → v ∈ Language.SUPPORTED ∨ Language.get s = Some v)
  ∧ (∀ url, navigation s' = Some url →
            (∃ g, g ∈ Language.SUPPORTED ∧ url = language_url (pathname s) g)
            ∨ navigation s = Some url).
Proof.
  cbv zeta. unfold run_language_calls, forEach. revert s.
  induction calls as [|c calls IH]; intros s; cbn [foldl].
  - repeat split; auto.
  - destruct (IH (run_language_call c s)) as (Hp & Hl & Hn).
    destruct (run_language_call_ok c s) as (Hp1 & Hl1 & Hn1).
    split; [by rewrite Hp|]. split.
    + intros v Hv. destruct (Hl v Hv) as [?|Hv1]; [by left|].
      unfold Language.get, getItem in *.
      destruct Hl1 as [Heq | (g & Hg & Heq)]; rewrite Heq in Hv1; [by right|].
      rewrite lookup_insert_eq in Hv1. left. congruence.
    + intros url Hu. destruct (Hn url Hu) as [(g & Hg & ->)|Hu1].
      * left. exists g. by rewrite <- Hp1.
      * destruct Hn1 as [Heq | (g & Hg & Heq)]; rewrite Heq in Hu1; [by right|].
        left. exists g. split; [done|]. congruence.
Qed.

End LanguageFacts.

(** ** Strings *)

Section StringFacts.

Lemma startsWith_refl (s : string) : startsWith s s = true.
Proof. induction s as [|c s IH]; simpl; [done|]. by rewrite decide_True. Qed.

Lemma includes_refl (s : string) : includes s s = true.
Proof. destruct s; simpl; [done|]. by rewrite decide_True, startsWith_refl. Qed.

Lemma includes_empty (s : string) : includes s "" = true.
Proof. by destruct s. Qed.

(** A string without a slash is its own single part. *)
Lemma split_no_separator (s : string) : includes s "/" = false → split "/" s = [s].
Proof.
  induction s as [|c s IH]; [done|]. cbn [includes startsWith split].
  intros H. apply orb_false_iff in H as [H1 H2].
  destruct (decide ("/"%char = c)) as [<-|Hc]; [by destruct s|].
  rewrite decide_False by done. by rewrite IH.
Qed.

(** The last part of a path is what follows its last slash. *)
Lemma split_directory_page (dir page : string) :
  includes page "/" = false →
  ∃ parts, split "/" (dir +:+ "/" +:+ page) = parts ++ [page] ∧ parts ≠ [].
Proof.
  intros Hp. induction dir as [|c dir (parts & IH & Hne)].
  - exists [""]. simpl. by rewrite split_no_separator.
  - change (String c dir +:+ "/" +:+ page) with (String c (dir +:+ "/" +:+ page)).
    cbn [split]. rewrite IH. case_decide.
    + by exists ("" :: parts).
    + destruct parts as [|part parts]; [done|]. by exists (String c part :: parts).
Qed.

Lemma last_part_snoc (parts : list string) (x : string) : last_part (parts ++ [x]) = Some x.
Proof.
  unfold last_part. rewrite length_app. simpl.
  replace (length parts + 1 - 1) with (length parts) by lia.
  by rewrite list_lookup_middle.
Qed.

Lemma currentPage_of_path (dir page : string) :
  includes page "/" = false → page ≠ "" →
  or_default (last_part (split "/" (dir +:+ "/" +:+ page))) "index.html" = page.
Proof.
  intros Hp Hne. destruct (split_directory_page dir page Hp) as (parts & -> & _).
  rewrite last_part_snoc. by destruct page.
Qed.

End StringFacts.

(** ** Loops over the document *)

Section ForEachFacts.

Lemma set_document_set_document (f g : dom → dom) (s : state) :
  set_document f (set_document g s) = set_document (λ d, f (g d)) s.
Proof. done. Qed.

Lemma set_document_fixed (f : dom → dom) (s : state) :
  f (document s) = document s → set_document f s = s.
Proof. intros H. unfold set_document. rewrite H. by destruct s. Qed.

(** A loop whose body only rewrites the document is one rewrite of the
    document. *)
Lemma forEach_set_document {A} (g : A → dom → dom) (l : list A) (s : state) :
  forEach (λ x, set_document (g x)) l s = set_document (forEach g l) s.
Proof.
  unfold forEach. revert s. induction l as [|x l IH]; intros s; cbn [foldl].
  - by destruct s.
  - rewrite IH. by destruct s.
Qed.

Lemma dom_eq (d d' : dom) : nodes d = nodes d' → d = d'.
Proof. destruct d, d'. unfold nodes. simpl. by intros [= -> ->]. Qed.

Lemma setupExternalLinks_document (s : state) :
  Utils.setupExternalLinks s =
  set_document (forEach (update (Utils.markExternal (location_hostname s)))
                        (httpAnchors (document s))) s.
Proof.
  unfold Utils.setupExternalLinks. fold (httpAnchors (document s)).
  generalize (httpAnchors (document s)). intros l.
  rewrite <- (forEach_set_document (λ r, update (Utils.markExternal (location_hostname s)) r)).
  unfold forEach. revert s. induction l as [|x l IH]; intros s; cbn [foldl]; [done|].
  apply (IH (set_document _ s)).
Qed.

Lemma setActiveLink_document (s : state) :
  Navigation.setActiveLink s =
  set_document (forEach (update (Navigation.markLink (pathname s))) (navLinks (document s))) s.
Proof. unfold Navigation.setActiveLink. apply forEach_set_document. Qed.

End ForEachFacts.

(** ** External links *)

Section ExternalLinkFacts.

Lemma elem_of_httpAnchors (d : dom) (r : ref) (e : element) :
  nodes d !! r = Some e →
  r ∈ httpAnchors d ↔
  isConnected e = true ∧ tagName e = "a"
  ∧ ∃ h, getAttribute "href" e = Some h ∧ startsWith h "http" = true.
Proof.
  intros He. unfold httpAnchors. rewrite elem_of_querySelectorAll.
  unfold connected. simpl. rewrite He. simpl.
  rewrite andb_true_iff, bool_decide_eq_true.
  destruct (getAttribute "href" e) as [h|]; split.
  - intros (? & ? & ?). eauto.
  - intros (? & ? & h' & [= <-] & ?). done.
  - intros (? & ? & ?). done.
  - intros (? & ? & h' & ? & ?). done.
Qed.

Lemma setupExternalLinks_lookup (s : state) (r : ref) :
  nodes (document (Utils.setupExternalLinks s)) !! r =
  if decide (r ∈ httpAnchors (document s))
  then Utils.markExternal (location_hostname s) <$> nodes (document s) !! r
  else nodes (document s) !! r.
Proof.
  rewrite setupExternalLinks_document. simpl.
  apply lookup_forEach_update, NoDup_querySelectorAll.
Qed.

End ExternalLinkFacts.

(** ** Selection is stable under changes of one class

    Two documents with the same nodes up to the class [c0] give the same
    result for every selector that does not mention [c0]. *)

Section SelectorStability.

Variables (d d' : dom) (c0 : string).

Hypothesis same_length : length (nodes d') = length (nodes d).

Hypothesis same_nodes : ∀ r e,
  nodes d !! r = Some e →
  ∃ e', nodes d' !! r = Some e'
        ∧ tagName e' = tagName e ∧ attributes e' = attributes e
        ∧ parentElement e' = parentElement e ∧ isConnected e' = isConnected e
        ∧ ∀ c, c ≠ c0 → ClassList.contains c (classList e') = ClassList.contains c (classList e).

Lemma stable_lookup_None (r : ref) : nodes d !! r = None → nodes d' !! r = None.
Proof. rewrite !lookup_ge_None. by rewrite same_length. Qed.

Lemma stable_parent (r : ref) :
  nodes d' !! r ≫= parentElement = nodes d !! r ≫= parentElement.
Proof.
  destruct (nodes d !! r) as [e|] eqn:E.
  - destruct (same_nodes r e E) as (e' & -> & _ & _ & Hp & _). simpl. done.
  - by rewrite stable_lookup_None.
Qed.

Lemma stable_connected (r : ref) : connected d' r = connected d r.
Proof.
  unfold connected. destruct (nodes d !! r) as [e|] eqn:E.
  - by destruct (same_nodes r e E) as (e' & -> & _ & _ & _ & -> & _).
  - by rewrite stable_lookup_None.
Qed.

Lemma stable_has_ancestor (P P' : ref → bool) (fuel : nat) (r : ref) :
  (∀ a, P' a = P a) → has_ancestor d' P' fuel r = has_ancestor d P fuel r.
Proof.
  intros HP. revert r. induction fuel as [|fuel IH]; intros r; cbn [has_ancestor]; [done|].
  rewrite stable_parent.
  destruct (nodes d !! r ≫= parentElement) as [p|]; [|done].
  by rewrite HP, IH.
Qed.

Lemma stable_matches (sel : selector) (r : ref) :
  mentions_class c0 sel = false → matches d' sel r = matches d sel r.
Proof.
  revert r. induction sel as [t|c|a|a p|s1 IH1 s2 IH2|anc IHa s2 IH2]; intros r Hm;
    cbn [matches mentions_class] in *.
  - destruct (nodes d !! r) as [e|] eqn:E.
    + by destruct (same_nodes r e E) as (e' & -> & -> & _).
    + by rewrite stable_lookup_None.
  - apply bool_decide_eq_false in Hm.
    destruct (nodes d !! r) as [e|] eqn:E.
    + destruct (same_nodes r e E) as (e' & -> & _ & _ & _ & _ & Hc). apply Hc. congruence.
    + by rewrite stable_lookup_None.
  - destruct (nodes d !! r) as [e|] eqn:E.
    + destruct (same_nodes r e E) as (e' & -> & _ & Ha & _). unfold getAttribute. by rewrite Ha.
    + by rewrite stable_lookup_None.
  - destruct (nodes d !! r) as [e|] eqn:E.
    + destruct (same_nodes r e E) as (e' & -> & _ & Ha & _). simpl.
      unfold getAttribute. by rewrite Ha.
    + by rewrite stable_lookup_None.
  - apply orb_false_iff in Hm as [H1 H2]. by rewrite IH1, IH2.
  - apply orb_false_iff in Hm as [H1 H2]. rewrite IH2 by done.
    rewrite same_length.
    f_equal. apply stable_has_ancestor. intros a. by apply IHa.
Qed.

Lemma stable_querySelectorAll (sel : selector) :
  mentions_class c0 sel = false → querySelectorAll sel d' = querySelectorAll sel d.
Proof.
  intros Hm. unfold querySelectorAll. rewrite same_length.
  apply list_filter_iff. intros r. by rewrite stable_connected, stable_matches.
Qed.

End SelectorStability.

(** ** Active link *)

Section ActiveLinkFacts.

Implicit Types (s : state) (e : element) (p : string).



Lemma markLink_active p e :
  ClassList.contains "active" (classList (Navigation.markLink p e)) =
  includes p (Navigation.toString (getAttribute "href" e))
  && negb (bool_decide (getAttribute "href" e = Some "/")).
Proof.
  unfold Navigation.markLink. destruct (_ && _); simpl.
  - by rewrite contains_add, bool_decide_eq_true_2, orb_true_r.
  - by rewrite contains_remove, bool_decide_eq_true_2, andb_false_r.
Qed.


Lemma setActiveLink_lookup s (r : ref) :
  nodes (document (Navigation.setActiveLink s)) !! r =
  if decide (r ∈ navLinks (document s))
  then Navigation.markLink (pathname s) <$> nodes (document s) !! r
  else nodes (document s) !! r.
Proof.
  rewrite setActiveLink_document. simpl.
  apply lookup_forEach_update, NoDup_querySelectorAll.
Qed.



(** An anchor without href: [getAttribute] gives [null], which [includes]
    turns into the text "null". *)
Lemma setActiveLink_without_href s (r : ref) e :
  r ∈ navLinks (document s) → nodes (document s) !! r = Some e →
  getAttribute "href" e = None →
  has_class "active" r (Navigation.setActiveLink s) = includes (pathname s) "null".
Proof.
  intros Hr He Hh. unfold has_class. rewrite setActiveLink_lookup, decide_True, He by done.
  simpl. rewrite markLink_active, Hh. simpl. by rewrite andb_true_r.
Qed.

End ActiveLinkFacts.

(** ** The way of an event *)

Section EventFacts.

Implicit Types (s : state) (d : dom) (r a p x : ref) (t u : target) (type ty : string).

Lemma ancestors_lt d (fuel : nat) r a : a ∈ ancestors d fuel r → a < r.
Proof.
  revert r. induction fuel as [|fuel IH]; intros r; cbn [ancestors].
  - by intros ?%elem_of_nil.
  - destruct (nodes d !! r ≫= parentElement) as [p|]; [|by intros ?%elem_of_nil].
    case_decide as Hlt; [|by intros ?%elem_of_nil].
    intros [->|Ha%IH]%elem_of_cons; lia.
Qed.

(** The walk needs no more fuel than the position it starts from. *)
Lemma ancestors_fuel d (fuel : nat) r : (r ≤ fuel)%nat → ancestors d fuel r = ancestors d r r.
Proof.
  revert fuel. induction (lt_wf r) as [r _ IH]. intros fuel Hle.
  destruct fuel as [|fuel], r as [|r]; cbn [ancestors]; try done; try lia.
  - destruct (nodes d !! 0 ≫= parentElement) as [p|]; [|done]. case_decide; [lia|done].
  - destruct (nodes d !! S r ≫= parentElement) as [p|]; [|done].
    case_decide as Hlt; [|done]. f_equal.
    rewrite (IH p) by lia. symmetry. apply IH; lia.
Qed.

Lemma ancestors_step d r p :
  nodes d !! r ≫= parentElement = Some p → p < r →
  ancestors d r r = p :: ancestors d p p.
Proof.
  intros Hp Hlt. destruct r as [|r]; [lia|]. cbn [ancestors].
  rewrite Hp, decide_True by done. f_equal. apply ancestors_fuel. lia.
Qed.

Lemma ancestors_no_parent d r : nodes d !! r = None → ancestors d r r = [].
Proof. intros H. destruct r as [|r]; [done|]. cbn [ancestors]. by rewrite H. Qed.

(** The walk only looks at parents that stand before their child, on
    positions up to the start. *)
Lemma ancestors_agree d d' (fuel : nat) r :
  (∀ x p, (x ≤ r)%nat → p < x →
          nodes d' !! x ≫= parentElement = Some p ↔ nodes d !! x ≫= parentElement = Some p) →
  ancestors d' fuel r = ancestors d fuel r.
Proof.
  revert r. induction fuel as [|fuel IH]; intros r H; [done|]. cbn [ancestors].
  destruct (nodes d' !! r ≫= parentElement) as [p'|] eqn:E',
           (nodes d !! r ≫= parentElement) as [p|] eqn:E.
  - destruct (decide (p' < r)) as [Hlt'|Hge'], (decide (p < r)) as [Hlt|Hge]; try done.
    + assert (p' = p) as -> by (apply (H r p') in E'; [congruence|lia|done]).
      f_equal. apply IH. intros x q Hx Hq. apply H; lia.
    + apply (H r p') in E'; [|lia|done]. congruence.
    + apply (H r p) in E; [|lia|done]. congruence.
  - case_decide as Hlt; [|done]. apply (H r p') in E'; [congruence|lia|done].
  - case_decide as Hlt; [|done]. apply (H r p) in E; [congruence|lia|done].
  - done.
Qed.

Lemma event_path_agree d d' r :
  (∀ x p, (x ≤ r)%nat → p < x →
          nodes d' !! x ≫= parentElement = Some p ↔ nodes d !! x ≫= parentElement = Some p) →
  event_path (Element r) d' = event_path (Element r) d.
Proof. intros H. cbn [event_path]. by rewrite (ancestors_agree d d'). Qed.

Lemma parent_update (f : element → element) r x d :
  (∀ e, parentElement (f e) = parentElement e) →
  nodes (update f r d) !! x ≫= parentElement = nodes d !! x ≫= parentElement.
Proof.
  intros Hf. rewrite lookup_update. case_decide; [|done].
  destruct (nodes d !! x) as [e|]; [apply Hf | done].
Qed.

Lemma handlers_for_agree t type s s' :
  listeners s' = listeners s →
  event_path t (document s') = event_path t (document s) →
  handlers_for t type s' = handlers_for t type s.
Proof. intros Hl Hp. unfold handlers_for, listeners_on. by rewrite Hl, Hp. Qed.

(** A change of the document that keeps the parents keeps the way of
    every event. *)
Lemma handlers_for_set_document t type (f : dom → dom) s :
  (∀ x, nodes (f (document s)) !! x ≫= parentElement
        = nodes (document s) !! x ≫= parentElement) →
  handlers_for t type (set_document f s) = handlers_for t type s.
Proof.
  intros H. apply handlers_for_agree; [done|]. destruct t as [r|]; [|done].
  apply event_path_agree. intros x p _ _. cbn [document set_document]. by rewrite H.
Qed.

Lemma handlers_for_DarkModeQuery type s :
  handlers_for DarkModeQuery type s = listeners_on DarkModeQuery type s.
Proof. unfold handlers_for. cbn. apply app_nil_r. Qed.

Lemma handlers_for_DarkModeQuery_agree type s s' :
  listeners s' = listeners s →
  handlers_for DarkModeQuery type s' = handlers_for DarkModeQuery type s.
Proof. intros H. by apply handlers_for_agree. Qed.

Lemma handlers_for_Element r type s :
  handlers_for (Element r) type s =
  listeners_on (Element r) type s
  ++ (ancestors (document s) r r ≫= λ a, listeners_on (Element a) type s).
Proof. unfold handlers_for. cbn [event_path]. by rewrite bind_cons, list_fmap_bind. Qed.

Lemma bind_nil_inv {A B : Type} (f : A → list B) (l : list A) :
  l ≫= f = [] → ∀ z, z ∈ l → f z = [].
Proof.
  induction l as [|y l IH]; [by intros _ z ?%elem_of_nil|].
  rewrite bind_cons. intros [Hy Hl]%app_eq_nil z [->|Hz]%elem_of_cons; [done|]. by apply IH.
Qed.

Lemma bind_ext_in {A B : Type} (f g : A → list B) (l : list A) :
  (∀ z, z ∈ l → f z = g z) → l ≫= f = l ≫= g.
Proof.
  induction l as [|y l IH]; intros H; [done|]. rewrite !bind_cons. f_equal.
  - apply H, list_elem_of_here.
  - apply IH. intros z Hz. by apply H, list_elem_of_further.
Qed.

Lemma handlers_for_nil r type s :
  handlers_for (Element r) type s = [] →
  listeners_on (Element r) type s = []
  ∧ ∀ a, a ∈ ancestors (document s) r r → listeners_on (Element a) type s = [].
Proof.
  rewrite handlers_for_Element. intros [H1 H2]%app_eq_nil. split; [done|].
  by apply (bind_nil_inv (λ a, listeners_on (Element a) type s)).
Qed.

Lemma bind_nil_fun {A B : Type} (l : list A) : l ≫= (λ _ : A, @nil B) = [].
Proof. induction l as [|y l IH]; [done|]. by rewrite bind_cons, IH. Qed.

(** When nothing listens above an element, an event on it runs its own
    listeners only. *)
Lemma handlers_for_quiet r type s :
  (∀ a, a ∈ ancestors (document s) r r → listeners_on (Element a) type s = []) →
  handlers_for (Element r) type s = listeners_on (Element r) type s.
Proof.
  intros H. rewrite handlers_for_Element.
  rewrite (bind_ext_in _ (λ _, [])) by done. by rewrite bind_nil_fun, app_nil_r.
Qed.

Lemma listeners_on_addEventListener t u type ty (h : handler) s :
  listeners_on t type (addEventListener u ty h s) =
  listeners_on t type s ++ (if decide (u = t ∧ ty = type) then [h] else []).
Proof.
  unfold listeners_on, addEventListener. cbn [listeners set_listeners].
  rewrite filter_app, fmap_app. f_equal.
  case_decide as E.
  - by rewrite filter_cons_True by done.
  - by rewrite filter_cons_False by done.
Qed.

(** A listener added to an element runs after the ones already on it and
    before those of the elements above. *)
Lemma handlers_for_addEventListener r type (h : handler) s :
  handlers_for (Element r) type (addEventListener (Element r) type h s) =
  listeners_on (Element r) type s
  ++ h :: (ancestors (document s) r r ≫= λ a, listeners_on (Element a) type s).
Proof.
  rewrite handlers_for_Element, listeners_on_addEventListener, decide_True by done.
  rewrite <- app_assoc. f_equal. cbn [app]. f_equal.
  cbn [document addEventListener set_listeners].
  apply bind_ext_in. intros a Ha%ancestors_lt.
  rewrite listeners_on_addEventListener, decide_False, app_nil_r; [done|].
  intros [[= ->] _]. lia.
Qed.

Lemma listeners_on_above_addEventListener r a type (h : handler) s :
  a ∈ ancestors (document s) r r →
  listeners_on (Element a) type (addEventListener (Element r) type h s)
  = listeners_on (Element a) type s.
Proof.
  intros Ha%ancestors_lt.
  rewrite listeners_on_addEventListener, decide_False, app_nil_r; [done|].
  intros [[= ->] _]. lia.
Qed.

Lemma handlers_for_addEventListener_first r type (h : handler) s :
  handlers_for (Element r) type s = [] →
  handlers_for (Element r) type (addEventListener (Element r) type h s) = [h].
Proof.
  intros Hnone. rewrite handlers_for_addEventListener.
  pose proof Hnone as [H1 H2]%handlers_for_nil. rewrite H1. cbn [app]. f_equal.
  rewrite handlers_for_Element in Hnone. by apply app_eq_nil in Hnone as [_ ->].
Qed.

Lemma handlers_for_DarkModeQuery_addEventListener type (h : handler) s :
  handlers_for DarkModeQuery type (addEventListener DarkModeQuery type h s)
  = handlers_for DarkModeQuery type s ++ [h].
Proof.
  by rewrite !handlers_for_DarkModeQuery, listeners_on_addEventListener, decide_True.
Qed.

(** A listener added elsewhere, or for another type of event, is not on
    the way. *)
Lemma handlers_for_addEventListener_off t u type ty (h : handler) s :
  u ∉ event_path t (document s) ∨ ty ≠ type →
  handlers_for t type (addEventListener u ty h s) = handlers_for t type s.
Proof.
  intros H. unfold handlers_for. cbn [document addEventListener set_listeners].
  apply bind_ext_in. intros t' Ht'.
  rewrite listeners_on_addEventListener, decide_False, app_nil_r; [done|].
  intros [-> ->]. destruct H; done.
Qed.

(** Replacing the children of an element leaves the way of an event fired
    on it as it is. *)
Lemma event_path_replace_children (g : list child → list child) r d :
  event_path (Element r) (update (set_childNodes g) r (detachChildren r d))
  = event_path (Element r) d.
Proof.
  apply event_path_agree. intros x p Hx Hp.
  rewrite parent_update by done. apply parent_detachChildren. lia.
Qed.

Lemma handlers_for_assign_textContent (t : string) r type s :
  handlers_for (Element r) type (set_document (assign_textContent t r) s)
  = handlers_for (Element r) type s.
Proof.
  apply handlers_for_agree; [done|]. apply event_path_replace_children.
Qed.

Lemma click_single r (h : handler) s :
  handlers_for (Element r) "click" s = [h] → click r s = run_handler h Click s.
Proof. intros H. unfold click, dispatch. cbn [event_type]. by rewrite H. Qed.

End EventFacts.

(** ** Mobile menu *)

Section MobileMenuFacts.

Implicit Types (s : state) (m n x : ref).

Lemma getElementById_Some (id : string) (d : dom) (r : ref) :
  getElementById id d = Some r → is_Some (nodes d !! r).
Proof.
  unfold getElementById. intros H.
  apply head_Some_elem_of, list_elem_of_filter in H as [_ H].
  apply elem_of_seq in H. apply lookup_lt_is_Some. lia.
Qed.

Lemma querySelector_Some (sel : selector) (d : dom) (r : ref) :
  querySelector sel d = Some r → is_Some (nodes d !! r).
Proof.
  unfold querySelector, querySelectorAll. intros H.
  apply head_Some_elem_of, list_elem_of_filter in H as [_ H].
  apply elem_of_seq in H. apply lookup_lt_is_Some. lia.
Qed.

Lemma has_class_toggle (c : string) (r x : ref) s :
  is_Some (nodes (document s) !! r) →
  has_class c x (set_document (update (set_classList (ClassList.toggle c)) r) s) =
  if decide (r = x) then negb (has_class c x s) else has_class c x s.
Proof.
  intros [e He]. unfold has_class. simpl. rewrite lookup_update.
  case_decide as E; [subst|done].
  rewrite He. simpl. by rewrite contains_toggle, bool_decide_eq_true_2.
Qed.

Lemma toggle_keeps_nodes (c : string) (r x : ref) s :
  is_Some (nodes (document s) !! x) →
  is_Some (nodes (document (set_document (update (set_classList (ClassList.toggle c)) r) s)) !! x).
Proof.
  intros H. simpl. rewrite lookup_update. case_decide; [|done].
  by apply fmap_is_Some.
Qed.

(** One run of the listener: both markers flip when toggle and container
    are two elements; if they are one element it is flipped twice. *)
Lemma onMobileMenuClick_has_class m n x s :
  is_Some (nodes (document s) !! m) → is_Some (nodes (document s) !! n) →
  has_class "active" x (Navigation.onMobileMenuClick m n s) =
  if decide (m = n) then has_class "active" x s
  else if decide (x = m ∨ x = n) then negb (has_class "active" x s)
  else has_class "active" x s.
Proof.
  intros Hm Hn. unfold Navigation.onMobileMenuClick.
  rewrite has_class_toggle by by apply toggle_keeps_nodes.
  rewrite has_class_toggle by done.
  destruct (decide (m = n)) as [->|Hmn].
  - case_decide; [by rewrite negb_involutive | done].
  - destruct (decide (n = x)) as [Hnx|Hnx], (decide (m = x)) as [Hmx|Hmx],
             (decide (x = m ∨ x = n)) as [Ho|Ho];
      try done; try congruence; exfalso; intuition congruence.
Qed.

Lemma onMobileMenuClick_keeps m n s :
  (∀ r, handlers_for (Element r) "click" (Navigation.onMobileMenuClick m n s)
        = handlers_for (Element r) "click" s)
  ∧ ∀ x, is_Some (nodes (document s) !! x) →
         is_Some (nodes (document (Navigation.onMobileMenuClick m n s)) !! x).
Proof.
  split.
  - intros r. unfold Navigation.onMobileMenuClick.
    rewrite !handlers_for_set_document; [done| |]; intros x; by apply parent_update.
  - intros x Hx. unfold Navigation.onMobileMenuClick. by do 2 apply toggle_keeps_nodes.
Qed.

Lemma clicks_mobile_menu m n s (k : nat) :
  is_Some (nodes (document s) !! m) → is_Some (nodes (document s) !! n) →
  handlers_for (Element m) "click" s = [MobileMenuClick m n] →
  let s' := clicks k m s in
  handlers_for (Element m) "click" s' = [MobileMenuClick m n]
  ∧ is_Some (nodes (document s') !! m) ∧ is_Some (nodes (document s') !! n)
  ∧ (m ≠ n → has_class "active" m s' = xorb (Nat.odd k) (has_class "active" m s)
             ∧ has_class "active" n s' = xorb (Nat.odd k) (has_class "active" n s))
  ∧ markers_agree m n s' = markers_agree m n s.
Proof.
  intros Hm Hn Hh. cbv zeta. induction k as [|k (Hl & Hm' & Hn' & Hflip & Hagree)].
  - repeat split; try done; simpl; by destruct (has_class _ _ _).
  - cbn [clicks]. set (sk := clicks k m s) in *.
    rewrite (click_single m _ sk Hl). cbn [run_handler].
    destruct (onMobileMenuClick_keeps m n sk) as [Hl2 Hk2].
    split; [by rewrite Hl2|]. split; [by apply Hk2|]. split; [by apply Hk2|].
    split.
    + intros Hmn. destruct (Hflip Hmn) as [Hfm Hfn].
      rewrite !onMobileMenuClick_has_class by done.
      rewrite !(decide_False (P := m = n)) by done.
      rewrite (decide_True (P := m = m ∨ m = n)), (decide_True (P := n = m ∨ n = n)) by auto.
      rewrite Hfm, Hfn, Nat.odd_succ, <- Nat.negb_odd.
      by destruct (Nat.odd k), (has_class _ m s), (has_class _ n s).
    + rewrite <- Hagree. unfold markers_agree.
      rewrite !onMobileMenuClick_has_class by done.
      destruct (decide (m = n)) as [|Hmn]; [done|].
      rewrite (decide_True (P := m = m ∨ m = n)), (decide_True (P := n = m ∨ n = n)) by auto.
      by destruct (has_class _ m sk), (has_class _ n sk).
Qed.

End MobileMenuFacts.

(** ** Copy buttons *)

Section CopyButtonFacts.

Implicit Types (s : state) (d : dom) (c p b : ref).

Lemma nodes_appendChild p (e : element) d :
  nodes (appendChild p e d) =
  alter (set_childNodes (λ l, l ++ [ElementNode (length (nodes d))])) p (nodes d) ++ [e].
Proof. unfold appendChild. cbv zeta. by rewrite <- nodes_update. Qed.

Lemma set_style_set_style (f g : gmap string string → gmap string string) (e : element) :
  set_style f (set_style g e) = set_style (λ m, f (g m)) e.
Proof. done. Qed.

Lemma set_style_id (e : element) : set_style (λ m, m) e = e.
Proof. by destruct e. Qed.

(** A node that has an ancestor has a parent, and the parent is in the
    store when the wanted ancestors are. *)
Lemma has_ancestor_parent d (P : ref → bool) (fuel : nat) (r : ref) :
  (∀ a, P a = true → is_Some (nodes d !! a)) →
  has_ancestor d P fuel r = true →
  ∃ p, nodes d !! r ≫= parentElement = Some p ∧ p < length (nodes d).
Proof.
  intros HP. destruct fuel as [|fuel]; cbn [has_ancestor]; [done|].
  destruct (nodes d !! r ≫= parentElement) as [p|]; [|done].
  intros H. exists p. split; [done|]. apply lookup_lt_is_Some.
  apply orb_true_iff in H as [H|H]; [by apply HP|].
  destruct fuel as [|fuel]; cbn [has_ancestor] in H; [done|].
  destruct (nodes d !! p) as [e|]; [by eexists | done].
Qed.

Lemma codeBlocks_parent d c :
  c ∈ codeBlocks d →
  ∃ p, nodes d !! c ≫= parentElement = Some p ∧ p < length (nodes d).
Proof.
  unfold codeBlocks. rewrite elem_of_querySelectorAll. intros [_ H].
  cbn [matches] in H. apply andb_true_iff in H as [_ H].
  apply has_ancestor_parent in H; [done|].
  intros a Ha. destruct (nodes d !! a); [by eexists | done].
Qed.

Lemma addCopyButton_step c p s :
  nodes (document s) !! c ≫= parentElement = Some p →
  Utils.addCopyButton c s =
  addEventListener (Element (length (nodes (document s)))) "click"
    (CopyClick c (length (nodes (document s))))
    (set_document (λ d, appendChild p (Utils.copyButton p d) d)
       (set_document (update (set_style <["position" := "relative"]>) p) s)).
Proof. intros H. unfold Utils.addCopyButton. by rewrite H. Qed.

(** What the loop of [addCopyButtonsToCodeBlocks] has done after the code
    blocks [L], all with a parent among the first [n0] nodes: one new node
    and one listener per block; the first [n0] nodes changed in their style
    and by new buttons at the end of their children, the others not at
    all. *)
Lemma addCopyButtons_loop (L : list ref) (n0 : nat) s :
  (n0 ≤ length (nodes (document s)))%nat →
  (∀ c, c ∈ L → ∃ p, nodes (document s) !! c ≫= parentElement = Some p ∧ p < n0) →
  let n := length (nodes (document s)) in
  let s' := forEach Utils.addCopyButton L s in
  length (nodes (document s')) = n + length L
  ∧ listeners s' = listeners s ++ imap (copyListener n) L
  ∧ clipboardWrites s' = clipboardWrites s
  ∧ timers s' = timers s
  ∧ (∀ r e, nodes (document s) !! r = Some e →
            ∃ f bs, nodes (document s') !! r
                    = Some (set_style f (set_childNodes (λ l, l ++ (ElementNode <$> bs)) e))
                    ∧ ∀ b, b ∈ bs →
                           ∃ i c, b = n + i ∧ L !! i = Some c
                                  ∧ nodes (document s) !! c ≫= parentElement = Some r)
  ∧ (∀ r e, (n0 ≤ r)%nat → nodes (document s) !! r = Some e →
            nodes (document s') !! r = Some e)
  ∧ (∀ i c, L !! i = Some c →
            ∃ p cn, nodes (document s) !! c ≫= parentElement = Some p
                    ∧ nodes (document s') !! (n + i) =
                      Some {| tagName := "button"; attributes := ∅;
                              classList := ["copy-code-btn"]; style := Utils.buttonStyle;
                              childNodes := [TextNode "Copy"]; hostname := "";
                              parentElement := Some p; isConnected := cn |}
                    ∧ ∃ e', nodes (document s') !! p = Some e'
                            ∧ ElementNode (n + i) ∈ childNodes e').
Proof.
  cbv zeta. unfold forEach. revert s. induction L as [|c L IH]; intros s Hn0 HL; cbn [foldl].
  - rewrite Nat.add_0_r, app_nil_r. repeat split; try done.
    intros r e He. exists (λ m, m), []. split; [|by intros b ?%elem_of_nil].
    rewrite He. f_equal. destruct e. unfold set_style, set_childNodes. cbn.
    by rewrite app_nil_r.
  - destruct (HL c) as (p & Hp & Hlt); [apply list_elem_of_here|].
    rewrite (addCopyButton_step c p s Hp).
    set (n := length (nodes (document s))) in *.
    set (btn := Utils.copyButton p (update (set_style <["position" := "relative"]>) p
                                           (document s))).
    set (s1 := addEventListener _ _ _ _).
    set (grow := λ e : element,
           set_childNodes (λ l, l ++ [ElementNode n])
                          (set_style <["position" := "relative"]> e)).
    assert (Hn1 : nodes (document s1) = alter grow p (nodes (document s)) ++ [btn]).
    { unfold s1. cbn [document addEventListener set_listeners set_document].
      rewrite nodes_appendChild, length_nodes_update, nodes_update. fold n.
      by rewrite list_alter_alter_eq. }
    assert (Hlen1 : length (nodes (document s1)) = S n).
    { rewrite Hn1, length_app, length_alter. cbn [length]. unfold n. lia. }
    assert (Hold : ∀ r e, nodes (document s) !! r = Some e →
                          nodes (document s1) !! r
                          = Some (if decide (p = r) then grow e else e)).
    { intros r e He. rewrite Hn1.
      rewrite lookup_app_l by (rewrite length_alter; by apply lookup_lt_Some in He).
      case_decide as E.
      - subst. by rewrite list_lookup_alter_eq, He.
      - by rewrite list_lookup_alter_ne, He. }
    assert (Hparent : ∀ r, is_Some (nodes (document s) !! r) →
                           nodes (document s1) !! r ≫= parentElement
                           = nodes (document s) !! r ≫= parentElement).
    { intros r [e He]. rewrite (Hold r e He), He. by case_decide. }
    assert (Hb : nodes (document s1) !! n = Some btn).
    { rewrite Hn1, lookup_app_r by (rewrite length_alter; unfold n; lia).
      rewrite length_alter. fold n. by rewrite Nat.sub_diag. }
    assert (HinL : ∀ i c', L !! i = Some c' → is_Some (nodes (document s) !! c')).
    { intros i c' Hi. destruct (HL c') as (q & Hq & _).
      { apply list_elem_of_further. by apply list_elem_of_lookup_2 in Hi. }
      destruct (nodes (document s) !! c'); [by eexists | done]. }
    destruct (IH s1) as (Hlen & Hls & Hcw & Htm & Hkept & Hrest & Hnew).
    { rewrite Hlen1. lia. }
    { intros c' Hc'. destruct (HL c') as (p' & Hp' & Hlt'); [by apply list_elem_of_further|].
      exists p'. split; [|done]. rewrite Hparent; [done|].
      destruct (nodes (document s) !! c'); [by eexists | done]. }
    rewrite Hlen1 in *.
    split; [rewrite Hlen; cbn [length]; lia|]. split.
    { rewrite Hls. unfold s1 at 1. simpl. rewrite <- app_assoc. f_equal. simpl.
      unfold copyListener at 2. rewrite Nat.add_0_r. f_equal.
      apply imap_ext. intros i x _. unfold copyListener. simpl.
      by rewrite !Nat.add_succ_r. }
    split; [by rewrite Hcw|]. split; [by rewrite Htm|]. split.
    { intros r e He. destruct (Hkept r _ (Hold r e He)) as (g & bs & Hg & Hbs).
      assert (Hbs' : ∀ b, b ∈ bs →
                ∃ i c', b = n + i ∧ (c :: L) !! i = Some c'
                        ∧ nodes (document s) !! c' ≫= parentElement = Some r).
      { intros b (i & c' & -> & Hi & Hc')%Hbs. exists (S i), c'.
        split; [lia|]. split; [done|]. rewrite <- Hparent; [done | by eapply HinL]. }
      rewrite Hg. destruct (decide (p = r)) as [->|Hne].
      - exists (λ m, g (<["position" := "relative"]> m)), (n :: bs). split.
        + f_equal. unfold grow, set_style, set_childNodes. cbn. f_equal.
          by rewrite <- app_assoc.
        + intros b [->|Hb']%elem_of_cons; [|by apply Hbs'].
          exists 0, c. split; [lia|]. by split.
      - by exists g, bs. }
    split.
    { intros r e Hr He. apply Hrest; [done|]. rewrite (Hold r e He).
      rewrite decide_False; [done | lia]. }
    intros [|i] c' Hi; simpl in Hi.
    + injection Hi as <-. exists p, (connected (update (set_style <["position" := "relative"]>) p
                                                      (document s)) p).
      split; [done|]. rewrite Nat.add_0_r. split; [apply Hrest; [unfold n; lia | done]|].
      destruct (nodes (document s) !! p) as [e|] eqn:He;
        [|apply lookup_ge_None in He; fold n in He; lia].
      destruct (Hkept p _ (Hold p e He)) as (g & bs & Hg & _).
      eexists. split; [exact Hg|]. rewrite decide_True by done.
      unfold grow. cbn. rewrite !elem_of_app. left. right. apply list_elem_of_here.
    + destruct (Hnew i c' Hi) as (p' & cn & Hp' & Hb' & He'). exists p', cn.
      assert (nodes (document s) !! c' ≫= parentElement = Some p') as Hq.
      { rewrite <- Hparent; [done | by eapply HinL]. }
      replace (n + S i) with (S n + i) by lia. done.
Qed.

(** Among the listeners of the loop only the [i]-th one sits on the [i]-th
    button. *)
Lemma handlers_of_copyListeners (L : list ref) (n t : nat) :
  l_handler <$> filter (λ l, l_target l = Element t ∧ l_type l = "click")
                       (imap (copyListener n) L)
  = match L !! (t - n) with
    | Some c => if decide (n ≤ t)%nat then [CopyClick c t] else []
    | None => []
    end.
Proof.
  revert n. induction L as [|c L IH]; intros n.
  - by rewrite lookup_nil.
  - rewrite imap_cons.
    rewrite (imap_ext _ (copyListener (S n))); last first.
    { intros j x _. unfold copyListener. simpl. by rewrite Nat.add_succ_r. }
    destruct (decide (t = n)) as [->|Htn].
    + rewrite filter_cons_True by (unfold copyListener; simpl; by rewrite Nat.add_0_r).
      rewrite fmap_cons, IH, Nat.sub_diag. cbn [lookup list_lookup].
      destruct (decide (n ≤ n)%nat); [|lia].
      unfold copyListener. simpl. rewrite Nat.add_0_r.
      destruct (L !! (n - S n)); [|done].
      destruct (decide (S n ≤ n)%nat); [lia | done].
    + rewrite filter_cons_False; last first.
      { unfold copyListener. simpl. rewrite Nat.add_0_r. intros [[= ->] _]. done. }
      rewrite IH. destruct (decide (n ≤ t)%nat) as [Hle|Hgt].
      * replace (t - n) with (S (t - S n)) by lia. cbn [lookup list_lookup].
        destruct (L !! (t - S n)); [|done].
        destruct (decide (S n ≤ t)%nat); [done | lia].
      * replace (t - S n) with 0 by lia. replace (t - n) with 0 by lia.
        cbn [lookup list_lookup].
        destruct (L !! 0); [|done]. destruct (decide (S n ≤ t)%nat); [lia | done].
Qed.

(** The click listener leaves a pending write with the text of the code
    block. *)
Lemma onCopyClick_pending c b s :
  is_Some (nodes (document s) !! c) →
  Utils.onCopyClick c b s =
  set_clipboardWrites
    (λ ws, ws ++ [{| cw_text := textContent (document s) c; cw_then := CopyDone b |}]) s.
Proof. intros [e He]. unfold Utils.onCopyClick. by rewrite He. Qed.

Lemma set_clipboardWrites_restore (w : clipboardWrite) s :
  set_clipboardWrites (delete (length (clipboardWrites s)))
    (set_clipboardWrites (λ ws, ws ++ [w]) s) = s.
Proof.
  unfold set_clipboardWrites. simpl. rewrite delete_middle, app_nil_r. by destruct s.
Qed.

(** The write that the click started, when it settles. *)
Lemma clipboardSettles_after_click c b s (ok : bool) :
  is_Some (nodes (document s) !! c) →
  clipboardSettles (length (clipboardWrites s)) ok (Utils.onCopyClick c b s) =
  if ok then Utils.onCopyDone b s else s.
Proof.
  intros He. rewrite (onCopyClick_pending c b s He). unfold clipboardSettles.
  cbn [clipboardWrites set_clipboardWrites].
  rewrite list_lookup_middle by done.
  rewrite (set_clipboardWrites_restore _ s). by destruct ok.
Qed.

Lemma label_assign_textContent (t : string) b s :
  is_Some (nodes (document s) !! b) →
  label b (set_document (assign_textContent t b) s) = Some t.
Proof.
  intros Hb. unfold label. cbn [document set_document].
  pose proof (proj2 (lookup_assign_textContent_is_Some t b (document s) b) Hb) as [e ->].
  by rewrite textContent_assign_textContent.
Qed.

Lemma label_onCopyDone b s :
  is_Some (nodes (document s) !! b) → label b (Utils.onCopyDone b s) = Some "Copied!".
Proof. intros Hb. by apply (label_assign_textContent "Copied!"). Qed.

Lemma timerFires_after_done b s :
  timerFires (length (timers s)) (Utils.onCopyDone b s) =
  Utils.onCopyRevert b (set_document (assign_textContent "Copied!" b) s).
Proof.
  unfold timerFires, Utils.onCopyDone. cbn [timers set_timers set_document].
  rewrite list_lookup_middle by done. cbn [run_callback t_callback].
  unfold set_timers. simpl. by rewrite delete_middle, app_nil_r.
Qed.

Lemma label_onCopyRevert b s :
  is_Some (nodes (document s) !! b) → label b (Utils.onCopyRevert b s) = Some "Copy".
Proof. intros Hb. by apply (label_assign_textContent "Copy"). Qed.

(** *** What the other click listeners leave alone

    A listener of the script that runs on the way of a click starts no
    timer, takes no pending write away, and does not touch the text of an
    element other than the theme toggle. *)

Lemma getElementById_id (id : string) d (r : ref) :
  getElementById id d = Some r → nodes d !! r ≫= getAttribute "id" = Some id.
Proof.
  unfold getElementById. intros H.
  apply head_Some_elem_of, list_elem_of_filter in H as [H _].
  apply andb_True in H as [_ H]. by apply bool_decide_unpack in H.
Qed.

Lemma plain_button_label (t : string) b s :
  plain_button t b (document s) → label b s = Some t.
Proof.
  intros (e & He & _ & Hc). unfold label. rewrite He. f_equal.
  by apply (textContent_text _ _ e).
Qed.

Lemma plain_button_update (f : element → element) (r : ref) (t : string) b d :
  (∀ e, attributes (f e) = attributes e ∧ childNodes (f e) = childNodes e) →
  plain_button t b d → plain_button t b (update f r d).
Proof.
  intros Hf (e & He & Hid & Hc). unfold plain_button. rewrite lookup_update.
  case_decide; [|by exists e]. rewrite He. exists (f e).
  destruct (Hf e) as [Ha Hch]. split; [done|]. unfold getAttribute. by rewrite Ha, Hch.
Qed.

Lemma plain_button_detachChildren (r : ref) (t : string) b d :
  plain_button t b d → plain_button t b (detachChildren r d).
Proof.
  intros (e & He & Hid & Hc). unfold plain_button.
  destruct (lookup_detachChildren r d b) as [-> | ->]; [by exists e|].
  rewrite He. exists (detached r e). split; [done|]. unfold detached. by case_decide.
Qed.

Lemma plain_button_applyTheme (theme t : string) b s :
  plain_button t b (document s) → plain_button t b (document (Theme.applyTheme theme s)).
Proof.
  intros H. unfold Theme.applyTheme.
  repeat case_decide; cbn [document set_document]; by repeat apply plain_button_update.
Qed.

Lemma plain_button_updateToggleButton (theme t : string) b s :
  plain_button t b (document s) →
  plain_button t b (document (Theme.updateToggleButton theme s)).
Proof.
  intros H. unfold Theme.updateToggleButton.
  destruct (getElementById _ _) as [btn|] eqn:Hbtn; [|done].
  cbn [document set_document].
  assert (btn ≠ b) as Hne.
  { intros ->. apply getElementById_id in Hbtn. destruct H as (e & He & Hid & _).
    rewrite He in Hbtn. by apply Hid. }
  destruct (plain_button_detachChildren btn t b _ H) as (e & He & Hid & Hc).
  exists e. unfold Theme.assign_innerHTML. by rewrite !lookup_update, !decide_False.
Qed.

Lemma toggle_pending s :
  timers (Theme.toggle s) = timers s ∧ clipboardWrites (Theme.toggle s) = clipboardWrites s.
Proof.
  unfold Theme.toggle, Theme.updateToggleButton.
  destruct (getElementById _ _); cbn; unfold Theme.applyTheme; by repeat case_decide.
Qed.

Lemma switch_pending (lang : string) s :
  document (Language.switch lang s) = document s
  ∧ timers (Language.switch lang s) = timers s
  ∧ clipboardWrites (Language.switch lang s) = clipboardWrites s.
Proof.
  destruct (decide (lang ∈ Language.SUPPORTED)) as [H|H].
  - by rewrite switch_supported.
  - by rewrite switch_unsupported.
Qed.

(** One listener on the way of a click. *)
Lemma run_handler_click_keeps (h : handler) (t : string) b s :
  plain_button t b (document s) →
  plain_button t b (document (run_handler h Click s))
  ∧ timers (run_handler h Click s) = timers s
  ∧ ∃ more, clipboardWrites (run_handler h Click s) = clipboardWrites s ++ more.
Proof.
  intros H. destruct h as [| |link|m n|c' b']; cbn [run_handler].
  - split; [done|]. split; [done|]. exists []. by rewrite app_nil_r.
  - destruct (toggle_pending s) as [-> ->].
    split; [|split; [done | exists []; by rewrite app_nil_r]].
    unfold Theme.toggle. apply plain_button_updateToggleButton.
    by apply plain_button_applyTheme.
  - unfold Language.onLangLinkClick.
    destruct (nodes (document s) !! link ≫= getAttribute "data-lang") as [lang|].
    + destruct (switch_pending lang s) as (-> & -> & ->).
      split; [done|]. split; [done|]. exists []. by rewrite app_nil_r.
    + split; [done|]. split; [done|]. exists []. by rewrite app_nil_r.
  - split; [|split; [done | exists []; by rewrite app_nil_r]].
    unfold Navigation.onMobileMenuClick. cbn [document set_document].
    apply plain_button_update; [done|]. by apply plain_button_update.
  - unfold Utils.onCopyClick. destruct (nodes (document s) !! c').
    + split; [done|]. split; [done|]. by eexists.
    + split; [done|]. split; [done|]. exists []. by rewrite app_nil_r.
Qed.

(** All of them, one after the other. *)
Lemma click_handlers_keep (hs : list handler) (t : string) b s :
  plain_button t b (document s) →
  let s' := forEach (λ h, run_handler h Click) hs s in
  plain_button t b (document s')
  ∧ timers s' = timers s
  ∧ ∃ more, clipboardWrites s' = clipboardWrites s ++ more.
Proof.
  cbv zeta. unfold forEach. revert s. induction hs as [|h hs IH]; intros s H; cbn [foldl].
  - split; [done|]. split; [done|]. exists []. by rewrite app_nil_r.
  - destruct (run_handler_click_keeps h t b s H) as (H1 & Ht1 & more1 & Hw1).
    destruct (IH _ H1) as (H2 & Ht2 & more2 & Hw2).
    split; [done|]. split; [by rewrite Ht2|].
    exists (more1 ++ more2). by rewrite Hw2, Hw1, app_assoc.
Qed.

(** A click whose first listener is the one of a copy button, whatever
    else listens on the way: the write of the button is pending, and when
    it settles the label of the button is set, or left alone. *)
Lemma copy_click_first c b (rest : list handler) s :
  is_Some (nodes (document s) !! c) →
  plain_button "Copy" b (document s) →
  handlers_for (Element b) "click" s = CopyClick c b :: rest →
  let s' := click b s in
  let w := length (clipboardWrites s) in
  let revert := {| t_callback := CopyRevert b; t_delay := 2000 |} in
  label b s' = Some "Copy"
  ∧ label b (clipboardSettles w true s') = Some "Copied!"
  ∧ timers (clipboardSettles w true s') = timers s ++ [revert]
  ∧ label b (timerFires (length (timers s)) (clipboardSettles w true s')) = Some "Copy"
  ∧ label b (clipboardSettles w false s') = Some "Copy".
Proof.
  intros Hc Hb Hh. cbv zeta. unfold click, dispatch. cbn [event_type]. rewrite Hh.
  change (forEach ?f (?h :: ?l) ?x) with (forEach f l (f h x)). cbn [run_handler].
  rewrite (onCopyClick_pending c b s Hc).
  set (w0 := {| cw_text := textContent (document s) c; cw_then := CopyDone b |}).
  set (s0 := set_clipboardWrites (λ ws, ws ++ [w0]) s).
  destruct (click_handlers_keep rest "Copy" b s0 Hb) as (Hy & Hty & more & Hwy).
  set (y := forEach (λ h, run_handler h Click) rest s0) in *.
  change (timers s0) with (timers s) in Hty.
  change (clipboardWrites s0) with (clipboardWrites s ++ [w0]) in Hwy.
  assert (Hw : clipboardWrites y !! length (clipboardWrites s) = Some w0).
  { rewrite Hwy, <- app_assoc. by apply list_lookup_middle. }
  set (y' := set_clipboardWrites (delete (length (clipboardWrites s))) y).
  assert (Hok : clipboardSettles (length (clipboardWrites s)) true y = Utils.onCopyDone b y').
  { unfold clipboardSettles. by rewrite Hw. }
  assert (Hfail : clipboardSettles (length (clipboardWrites s)) false y = y').
  { unfold clipboardSettles. by rewrite Hw. }
  assert (Hby : is_Some (nodes (document y') !! b)).
  { destruct Hy as (e & He & _). by exists e. }
  rewrite Hok, Hfail. split; [by apply plain_button_label|].
  split; [by apply label_onCopyDone|]. split; [by rewrite <- Hty|]. split.
  - replace (length (timers s)) with (length (timers y')) by by rewrite <- Hty.
    rewrite timerFires_after_done. apply label_onCopyRevert.
    cbn [document set_document]. by apply lookup_assign_textContent_is_Some.
  - by apply (plain_button_label "Copy" b y').
Qed.

(** What a click on a button of [addCopyButtonsToCodeBlocks] runs: the
    listener of the button, then whatever was on the way up from the parent
    of its code block; and a click on an element that was there before
    runs what it ran before. *)
Lemma handlers_for_after_addCopyButtons s :
  let n := length (nodes (document s)) in
  let s1 := Utils.addCopyButtonsToCodeBlocks s in
  (∀ r, r < n → handlers_for (Element r) "click" s1 = handlers_for (Element r) "click" s)
  ∧ ∀ i c, codeBlocks (document s) !! i = Some c →
           ∃ p, nodes (document s) !! c ≫= parentElement = Some p
                ∧ handlers_for (Element (n + i)) "click" s1
                  = listeners_on (Element (n + i)) "click" s
                    ++ CopyClick c (n + i) :: handlers_for (Element p) "click" s.
Proof.
  cbv zeta. set (n := length (nodes (document s))).
  destruct (addCopyButtons_loop (codeBlocks (document s)) n s)
    as (_ & Hls & _ & _ & Hkept & _ & Hnew).
  { done. }
  { intros c' Hc'. by apply codeBlocks_parent. }
  fold n in Hls, Hnew.
  change (forEach Utils.addCopyButton (codeBlocks (document s)) s)
    with (Utils.addCopyButtonsToCodeBlocks s) in *.
  set (s1 := Utils.addCopyButtonsToCodeBlocks s) in *.
  assert (Hon : ∀ t, listeners_on (Element t) "click" s1
                     = listeners_on (Element t) "click" s
                       ++ match codeBlocks (document s) !! (t - n) with
                          | Some c => if decide (n ≤ t)%nat then [CopyClick c t] else []
                          | None => []
                          end).
  { intros t. unfold listeners_on. rewrite Hls, filter_app, fmap_app.
    by rewrite handlers_of_copyListeners. }
  assert (Hon_old : ∀ t, t < n → listeners_on (Element t) "click" s1
                                 = listeners_on (Element t) "click" s).
  { intros t Ht. rewrite Hon. destruct (codeBlocks (document s) !! (t - n)).
    - rewrite decide_False by lia. apply app_nil_r.
    - apply app_nil_r. }
  assert (Hpar : ∀ x, x < n → nodes (document s1) !! x ≫= parentElement
                              = nodes (document s) !! x ≫= parentElement).
  { intros x Hx. destruct (nodes (document s) !! x) as [e|] eqn:He.
    - by destruct (Hkept x e He) as (f & bs & -> & _).
    - apply lookup_ge_None in He. fold n in He. lia. }
  assert (Hold : ∀ r, r < n → handlers_for (Element r) "click" s1
                              = handlers_for (Element r) "click" s).
  { intros r Hr. rewrite !handlers_for_Element, Hon_old by done. f_equal.
    rewrite (ancestors_agree (document s) (document s1)).
    - apply bind_ext_in. intros a Ha%ancestors_lt. apply Hon_old. lia.
    - intros x p Hx _. rewrite Hpar; [done | lia]. }
  split; [exact Hold|]. intros i c Hc.
  destruct (Hnew i c Hc) as (p & cn & Hp & Hb & _). exists p. split; [done|].
  assert (Hlt : p < n).
  { destruct (codeBlocks_parent (document s) c) as (q & Hq & Hlt).
    - by apply list_elem_of_lookup_2 in Hc.
    - fold n in Hlt. congruence. }
  rewrite handlers_for_Element, Hon.
  replace (n + i - n) with i by lia. rewrite Hc, decide_True by lia.
  rewrite <- app_assoc. f_equal. cbn [app]. f_equal.
  rewrite (ancestors_step (document s1) (n + i) p) by (rewrite ?Hb; first [done | lia]).
  rewrite bind_cons, <- (Hold p Hlt). by rewrite handlers_for_Element.
Qed.

End CopyButtonFacts.

(** * The claims *)

(** C1, as stated, fails: on a page served from [jwtime.example] a link to
    [docs.jwtime.example] has another host, yet it is left as it is,
    because the host of the page occurs inside the host of the link. *)
Lemma C1_other_host_left_unmarked :
  let s := Sample.start "/en/manual.html" in
  nodes (document s) !! 6 = Some Sample.faq_link
  ∧ getAttribute "href" Sample.faq_link = Some "https://docs.jwtime.example/faq"
  ∧ hostname Sample.faq_link = "docs.jwtime.example"
  ∧ location_hostname s = "jwtime.example"
  ∧ bool_decide (hostname Sample.faq_link = location_hostname s) = false
  ∧ nodes (document (Utils.setupExternalLinks s)) !! 6 = Some Sample.faq_link
  ∧ getAttribute "target" Sample.faq_link = None.
Proof. cbv zeta. repeat split; vm_compute; reflexivity. Qed.

(** C1 (amended): an anchor whose href begins with "http" gets target
    "_blank" and rel "noopener noreferrer" exactly when its host does not
    contain the host of the page as a substring; an anchor whose host
    contains the host of the page, and so one whose host equals it, is left
    unmodified. *)
Theorem C1_setupExternalLinks_marks (s : state) (r : ref) (e : element) (h : string) :
  nodes (document s) !! r = Some e →
  isConnected e = true →
  tagName e = "a" →
  getAttribute "href" e = Some h →
  startsWith h "http" = true →
  let after := nodes (document (Utils.setupExternalLinks s)) !! r in
  (includes (hostname e) (location_hostname s) = false →
   after = Some (setAttribute "rel" "noopener noreferrer" (setAttribute "target" "_blank" e)))
  ∧ (includes (hostname e) (location_hostname s) = true → after = Some e)
  ∧ (hostname e = location_hostname s → after = Some e).
Proof.
  intros He Hc Ht Hh Hp. cbv zeta. rewrite setupExternalLinks_lookup.
  rewrite decide_True by (apply (elem_of_httpAnchors _ _ e); eauto).
  rewrite He. simpl. unfold Utils.markExternal.
  split; [|split].
  - by intros ->.
  - by intros ->.
  - intros ->. by rewrite includes_refl.
Qed.

Lemma C1_witness :
  nodes (document (Utils.setupExternalLinks (Sample.start "/en/manual.html"))) !! 10
  = Some (setAttribute "rel" "noopener noreferrer"
            (setAttribute "target" "_blank" Sample.source_link))
  ∧ nodes (document (Utils.setupExternalLinks (Sample.start "/en/manual.html"))) !! 11
    = Some Sample.news_link.
Proof.
  split.
  - refine (proj1 (C1_setupExternalLinks_marks (Sample.start "/en/manual.html") 10
                     Sample.source_link "https://github.com/JWTime/jwtime" _ _ _ _ _) _);
      reflexivity.
  - refine (proj2 (proj2 (C1_setupExternalLinks_marks (Sample.start "/en/manual.html") 11
                     Sample.news_link "http://jwtime.example/en/news.html" _ _ _ _ _)) _);
      reflexivity.
Defined.

(** C2: for a supported language L, [switch(L)] stores L and navigates to
    the same page under the prefix of L: from [/it/manual.html] to
    [/L/manual.html] (so [switch('en')] goes to [/en/manual.html]), and
    from the path [/], which has no file name, to [/L/index.html] (so
    [switch('fr')] goes to [/fr/index.html]); in general the file name
    after the last slash of the path is kept. *)
Theorem C2_switch_same_page (L : string) (s : state) :
  L ∈ Language.SUPPORTED →
  let s1 := Language.switch L (set_pathname "/it/manual.html" s) in
  let s2 := Language.switch L (set_pathname "/" s) in
  Language.get s1 = Some L ∧ navigation s1 = Some ("/" +:+ L +:+ "/manual.html")
  ∧ Language.get s2 = Some L ∧ navigation s2 = Some ("/" +:+ L +:+ "/index.html")
  ∧ ∀ dir page : string,
      includes page "/" = false → page ≠ "" →
      let s3 := Language.switch L (set_pathname (dir +:+ "/" +:+ page) s) in
      Language.get s3 = Some L
      ∧ navigation s3 =
        Some ((if includes (dir +:+ "/" +:+ page) "/jwtime/" then "/jwtime/" else "/")
                +:+ L +:+ "/" +:+ page).
Proof.
  intros HL. cbv zeta. rewrite !switch_supported by done.
  unfold Language.get, getItem. cbn [localStorage set_href setItem set_localStorage].
  rewrite !lookup_insert_eq. do 4 (split; [done|]).
  intros dir page Hp Hne. rewrite switch_supported by done.
  cbn [localStorage navigation pathname set_href setItem set_localStorage set_pathname].
  rewrite lookup_insert_eq. split; [done|].
  unfold language_url. by rewrite currentPage_of_path.
Qed.

Lemma C2_witness :
  navigation (Language.switch "en" (set_pathname "/it/manual.html" (Sample.start "/")))
    = Some "/en/manual.html"
  ∧ Language.get (Language.switch "en" (set_pathname "/it/manual.html" (Sample.start "/")))
    = Some "en"
  ∧ navigation (Language.switch "fr" (set_pathname "/" (Sample.start "/it/manual.html")))
    = Some "/fr/index.html"
  ∧ navigation (Language.switch "de"
                  (set_pathname ("/jwtime/it" +:+ "/" +:+ "news.html") (Sample.start "/")))
    = Some "/jwtime/de/news.html".
Proof.
  assert (Hen : "en" ∈ Language.SUPPORTED) by compute_done.
  assert (Hfr : "fr" ∈ Language.SUPPORTED) by compute_done.
  assert (Hde : "de" ∈ Language.SUPPORTED) by compute_done.
  pose proof (C2_switch_same_page "en" (Sample.start "/") Hen) as (H1 & H2 & _).
  pose proof (C2_switch_same_page "fr" (Sample.start "/it/manual.html") Hfr)
    as (_ & _ & _ & H4 & _).
  pose proof (C2_switch_same_page "de" (Sample.start "/") Hde) as (_ & _ & _ & _ & H5).
  assert (Hpage : "news.html" ≠ "") by discriminate.
  destruct (H5 "/jwtime/it" "news.html" eq_refl Hpage) as [_ H6].
  exact (conj H2 (conj H1 (conj H4 H6))).
Defined.

(** C3, as stated, fails: a value other than "dark" and "light" (here the
    meta-value "auto") leaves [body] with neither theme class. *)
Lemma C3_auto_leaves_no_theme_class :
  one_theme_class (Theme.applyTheme "auto" (Sample.start "/")) = false
  ∧ body_classes (Theme.applyTheme "auto" (Sample.start "/")) = [].
Proof. split; reflexivity. Qed.

(** C3 (amended): after [applyTheme(value)] the body never carries both
    theme classes; it carries exactly one when the value is "dark" or
    "light" and none for any other value; the function adds no class but
    "dark-theme" or "light-theme" (so nothing for "auto") and keeps all
    other classes. *)
Theorem C3_applyTheme_theme_classes (theme : string) (s : state) :
  let after := body_classes (Theme.applyTheme theme s) in
  ClassList.contains "dark-theme" after && ClassList.contains "light-theme" after = false
  ∧ one_theme_class (Theme.applyTheme theme s)
    = bool_decide (theme = Theme.DARK ∨ theme = Theme.LIGHT)
  ∧ ClassList.contains "dark-theme" after = bool_decide (theme = Theme.DARK)
  ∧ ClassList.contains "light-theme" after = bool_decide (theme = Theme.LIGHT)
  ∧ ∀ c, c ∈ after ↔
         (c ∈ body_classes s ∧ c ≠ "dark-theme" ∧ c ≠ "light-theme")
         ∨ (c = "dark-theme" ∧ theme = Theme.DARK)
         ∨ (c = "light-theme" ∧ theme = Theme.LIGHT).
Proof.
  cbv zeta. unfold one_theme_class.
  rewrite contains_dark_applyTheme, contains_light_applyTheme.
  split; [|split; [|split; [done|split; [done|intros c]]]].
  - destruct (decide (theme = Theme.DARK)) as [->|Hd]; [done|].
    by rewrite (bool_decide_eq_false_2 _ Hd).
  - destruct (decide (theme = Theme.DARK)) as [->|Hd]; [done|].
    destruct (decide (theme = Theme.LIGHT)) as [->|Hl]; [done|].
    rewrite (bool_decide_eq_false_2 _ Hd), (bool_decide_eq_false_2 _ Hl).
    symmetry. apply bool_decide_eq_false_2. tauto.
  - rewrite applyTheme_body_classes. cbv zeta.
    destruct (decide (theme = Theme.DARK)) as [->|Hd];
      [|destruct (decide (theme = Theme.LIGHT)) as [->|Hl]];
      rewrite ?elem_of_add, !elem_of_remove;
      intuition (subst; auto; try discriminate; try congruence).
Qed.

(** C4, as stated, fails for an initial state in which only one of the two
    elements carries "active": here the container starts with it and the
    toggle without it, and after each click they still disagree. *)
Lemma C4_markers_disagree_after_click :
  let s := Navigation.setupMobileMenu (Sample.start_nav_open "/") in
  getElementById "mobile-menu-toggle" (document s) = Some 2
  ∧ querySelector (SelClass "nav") (document s) = Some 3
  ∧ has_class "active" 2 (clicks 1 2 s) = true
  ∧ has_class "active" 3 (clicks 1 2 s) = false
  ∧ markers_agree 2 3 (clicks 1 2 s) = false
  ∧ markers_agree 2 3 (clicks 2 2 s) = false.
Proof. cbv zeta. repeat split; vm_compute; reflexivity. Qed.

(** C4 (amended): [setupMobileMenu()] does nothing when the menu toggle or
    the navigation container is missing; otherwise it adds one click
    listener to the toggle, and every click flips the class "active" on
    both elements, so that after any number of clicks the two elements
    agree on it exactly when they agreed in the initial state. The
    listener is the first on the way of a click on the toggle: nothing
    listens on the toggle or above it before. *)
Theorem C4_setupMobileMenu_lockstep (s : state) :
  (getElementById "mobile-menu-toggle" (document s) = None
   ∨ querySelector (SelClass "nav") (document s) = None →
   Navigation.setupMobileMenu s = s)
  ∧ ∀ m n : ref,
      getElementById "mobile-menu-toggle" (document s) = Some m →
      querySelector (SelClass "nav") (document s) = Some n →
      Navigation.setupMobileMenu s
        = addEventListener (Element m) "click" (MobileMenuClick m n) s
      ∧ (handlers_for (Element m) "click" s = [] →
         ∀ k : nat,
           let s' := clicks k m (Navigation.setupMobileMenu s) in
           (m ≠ n →
            has_class "active" m s' = xorb (Nat.odd k) (has_class "active" m s)
            ∧ has_class "active" n s' = xorb (Nat.odd k) (has_class "active" n s))
           ∧ markers_agree m n s' = markers_agree m n s).
Proof.
  split.
  - unfold Navigation.setupMobileMenu. intros [-> | ->]; [done|].
    by destruct (getElementById _ _).
  - intros m n Hm Hn.
    assert (Navigation.setupMobileMenu s
            = addEventListener (Element m) "click" (MobileMenuClick m n) s) as Hs.
    { unfold Navigation.setupMobileMenu. by rewrite Hm, Hn. }
    split; [done|]. intros Hnone k. cbv zeta. rewrite Hs.
    apply getElementById_Some in Hm. apply querySelector_Some in Hn.
    destruct (clicks_mobile_menu m n
                (addEventListener (Element m) "click" (MobileMenuClick m n) s) k)
      as (_ & _ & _ & Hflip & Hagree); [done|done| |].
    { by apply handlers_for_addEventListener_first. }
    split; [exact Hflip | exact Hagree].
Qed.

Lemma C4_witness :
  markers_agree 2 3 (clicks 3 2 (Navigation.setupMobileMenu (Sample.start "/")))
  = markers_agree 2 3 (Sample.start "/").
Proof.
  refine (proj2 (proj2 (proj2 (C4_setupMobileMenu_lockstep (Sample.start "/")) 2 3 _ _) _ 3));
    reflexivity.
Defined.

(** C5: only a language of the supported set is written under the language
    key or put into a navigation URL. [save] writes its argument or
    nothing, and writes only a supported one; [switch] does nothing or
    stores a supported language and builds the URL from it;
    [detectAndSaveCurrentLanguage] stores nothing or a supported language;
    and after any history of language calls the stored language and the
    requested URL are what they were before or come from a supported
    language. *)
Theorem C5_only_supported_languages :
  (∀ lang s, Language.save lang s = s
             ∨ (lang ∈ Language.SUPPORTED
                ∧ Language.save lang s = setItem Language.STORAGE_KEY lang s))
  ∧ (∀ lang s, Language.switch lang s = s
               ∨ (lang ∈ Language.SUPPORTED
                  ∧ Language.switch lang s =
                    set_href (language_url (pathname s) lang)
                             (setItem Language.STORAGE_KEY lang s)))
  ∧ (∀ s, Language.detectAndSaveCurrentLanguage s = s
          ∨ ∃ g, g ∈ Language.SUPPORTED
                 ∧ Language.match_lang (pathname s) = Some g
                 ∧ Language.detectAndSaveCurrentLanguage s
                   = setItem Language.STORAGE_KEY g s)
  ∧ (∀ calls s v, Language.get (run_language_calls calls s) = Some v →
                  v ∈ Language.SUPPORTED ∨ Language.get s = Some v)
  ∧ (∀ calls s url, navigation (run_language_calls calls s) = Some url →
                    (∃ g, g ∈ Language.SUPPORTED ∧ url = language_url (pathname s) g)
                    ∨ navigation s = Some url).
Proof.
  split; [|split; [|split; [|split]]].
  - intros lang s. destruct (decide (lang ∈ Language.SUPPORTED)) as [H|H].
    + right. split; [done|]. by apply save_supported.
    + left. by apply save_unsupported.
  - intros lang s. destruct (decide (lang ∈ Language.SUPPORTED)) as [H|H].
    + right. split; [done|]. by apply switch_supported.
    + left. by apply switch_unsupported.
  - apply detect_cases.
  - intros calls s. apply (run_language_calls_ok calls s).
  - intros calls s. apply (run_language_calls_ok calls s).
Qed.

Lemma C5_witness :
  "de" ∈ Language.SUPPORTED ∨ Language.get (Sample.start "/en/manual.html") = Some "de".
Proof.
  refine (proj1 (proj2 (proj2 (proj2 C5_only_supported_languages)))
            [CallSave "tlh"; CallDetectAndSave; CallSwitch "de"]
            (Sample.start "/en/manual.html") "de" _).
  vm_compute. reflexivity.
Defined.

(** C6: for a language code L outside the supported set, [save(L)] and
    [switch(L)] change nothing: the stored language stays and no
    navigation is requested. *)
Theorem C6_unsupported_language_ignored (L : string) (s : state) :
  L ∉ Language.SUPPORTED →
  Language.save L s = s ∧ Language.switch L s = s.
Proof. intros H. split; [by apply save_unsupported | by apply switch_unsupported]. Qed.

Lemma C6_witness :
  Language.save "pt-BR" (Sample.start "/it/manual.html") = Sample.start "/it/manual.html"
  ∧ Language.switch "pt-BR" (Sample.start "/it/manual.html") = Sample.start "/it/manual.html".
Proof.
  apply (C6_unsupported_language_ignored "pt-BR"). compute_done.
Defined.

(** C7: for a theme value v in {dark, light}, [applyTheme(v)] followed by
    [getCurrentTheme()] returns v, whatever classes the body had and
    whatever the system prefers. *)
Theorem C7_applyTheme_getCurrentTheme (v : string) (s : state) :
  v = Theme.DARK ∨ v = Theme.LIGHT →
  Theme.getCurrentTheme (Theme.applyTheme v s) = v.
Proof. apply getCurrentTheme_applyTheme. Qed.

Lemma C7_witness :
  Theme.getCurrentTheme
    (Theme.applyTheme "light" (set_prefersDark true (Theme.applyTheme "dark" (Sample.start "/"))))
  = "light".
Proof.
  apply (C7_applyTheme_getCurrentTheme "light"). right. reflexivity.
Defined.




(** C9: for the copy button that [addCopyButtonsToCodeBlocks()] installs
    for a code block, a click followed by a successful clipboard write sets
    the label to "Copied!" and leaves a timer of 2000 ms whose callback
    sets it back to "Copy"; a click followed by a failed write leaves the
    label as it was. The button takes a fresh reference, on which nothing
    listens yet; a click on it runs its listener and then bubbles to the
    parent of the code block. When nothing else listens on the way, a
    failed write leaves the whole state as it was before the click; and
    whatever listens on the way, the label goes the same way. *)
Theorem C9_copy_button_click (s : state) (i : nat) (c : ref) :
  codeBlocks (document s) !! i = Some c →
  handlers_for (Element (length (nodes (document s)) + i)) "click" s = [] →
  let b := length (nodes (document s)) + i in
  let s1 := Utils.addCopyButtonsToCodeBlocks s in
  label b s1 = Some "Copy"
  ∧ is_Some (nodes (document s1) !! c)
  ∧ (∃ p : ref, nodes (document s) !! c ≫= parentElement = Some p
                ∧ handlers_for (Element b) "click" s1
                  = CopyClick c b :: handlers_for (Element p) "click" s)
  ∧ (∀ x : state,
      is_Some (nodes (document x) !! c) →
      is_Some (nodes (document x) !! b) →
      handlers_for (Element b) "click" x = [CopyClick c b] →
      let ok := clipboardSettles (length (clipboardWrites x)) true (click b x) in
      let failed := clipboardSettles (length (clipboardWrites x)) false (click b x) in
      label b ok = Some "Copied!"
      ∧ timers ok = timers x ++ [{| t_callback := CopyRevert b; t_delay := 2000 |}]
      ∧ label b (timerFires (length (timers x)) ok) = Some "Copy"
      ∧ failed = x)
  ∧ (let ok := clipboardSettles (length (clipboardWrites s1)) true (click b s1) in
     let failed := clipboardSettles (length (clipboardWrites s1)) false (click b s1) in
     label b (click b s1) = Some "Copy"
     ∧ label b ok = Some "Copied!"
     ∧ timers ok = timers s1 ++ [{| t_callback := CopyRevert b; t_delay := 2000 |}]
     ∧ label b (timerFires (length (timers s1)) ok) = Some "Copy"
     ∧ label b failed = Some "Copy").
Proof.
  intros Hc Hnone. cbv zeta.
  set (n := length (nodes (document s))) in *.
  destruct (addCopyButtons_loop (codeBlocks (document s)) n s)
    as (_ & _ & _ & _ & Hkept & _ & Hnew).
  { done. }
  { intros c' Hc'. by apply codeBlocks_parent. }
  fold n in Hnew.
  change (forEach Utils.addCopyButton (codeBlocks (document s)) s)
    with (Utils.addCopyButtonsToCodeBlocks s) in *.
  destruct (Hnew i c Hc) as (p & cn & Hp & Hb & _).
  assert (Hc1 : is_Some (nodes (document (Utils.addCopyButtonsToCodeBlocks s)) !! c)).
  { destruct (nodes (document s) !! c) as [e|] eqn:He; [|done].
    destruct (Hkept c e He) as (f & bs & -> & _). by eexists. }
  assert (Hh1 : handlers_for (Element (n + i)) "click" (Utils.addCopyButtonsToCodeBlocks s)
                = CopyClick c (n + i) :: handlers_for (Element p) "click" s).
  { destruct (proj2 (handlers_for_after_addCopyButtons s) i c Hc) as (q & Hq & Hh).
    fold n in Hh. rewrite Hh, (proj1 (handlers_for_nil _ _ _ Hnone)).
    cbn [app]. do 3 f_equal. congruence. }
  assert (Hplain : plain_button "Copy" (n + i)
                     (document (Utils.addCopyButtonsToCodeBlocks s))).
  { eexists. split; [exact Hb|]. split; [|done].
    unfold getAttribute. cbn [attributes]. by rewrite lookup_empty. }
  split; [by apply plain_button_label|]. split; [done|].
  split; [by exists p|]. split.
  - intros x Hcx Hbx Hh. cbv zeta.
    rewrite (click_single _ _ _ Hh). cbn [run_handler].
    rewrite !(clipboardSettles_after_click c (n + i) x) by done.
    split; [by apply label_onCopyDone|]. split; [done|]. split; [|done].
    rewrite timerFires_after_done. apply label_onCopyRevert.
    cbn [document set_document]. by apply lookup_assign_textContent_is_Some.
  - by apply (copy_click_first c (n + i) _ _ Hc1 Hplain Hh1).
Qed.

Lemma C9_witness :
  let s1 := Utils.addCopyButtonsToCodeBlocks (Sample.start "/en/manual.html") in
  label 12 (clipboardSettles 0 true (click 12 s1)) = Some "Copied!"
  ∧ timers (clipboardSettles 0 true (click 12 s1))
    = [{| t_callback := CopyRevert 12; t_delay := 2000 |}]
  ∧ label 12 (timerFires 0 (clipboardSettles 0 true (click 12 s1))) = Some "Copy"
  ∧ clipboardSettles 0 false (click 12 s1) = s1.
Proof.
  cbv zeta.
  pose proof (C9_copy_button_click (Sample.start "/en/manual.html") 0 8
                eq_refl eq_refl) as (_ & Hc & _ & Hx & _).
  exact (Hx (Utils.addCopyButtonsToCodeBlocks (Sample.start "/en/manual.html"))
            Hc (ex_intro _ _ eq_refl) eq_refl).
Defined.

(** C10: two calls of [toggle()] in a row bring [getCurrentTheme()] back
    to the value it had before the first one. *)
Theorem C10_toggle_twice (s : state) :
  Theme.getCurrentTheme (Theme.toggle (Theme.toggle s)) = Theme.getCurrentTheme s.
Proof.
  rewrite !getCurrentTheme_toggle.
  destruct (getCurrentTheme_cases s) as [-> | ->]; reflexivity.
Qed.


(** * Further properties of the script *)

(** ** Theme: initialisation, toggling and the system preference *)

Section ThemeMore.

Implicit Types (s : state) (c : string) (l : list string).

Lemma remove_not_elem c l : c ∉ l → ClassList.remove c l = l.
Proof.
  unfold ClassList.remove. induction l as [|x l IH]; intros H; [done|].
  apply not_elem_of_cons in H as [Hx Hl].
  rewrite filter_cons_True by congruence. by rewrite IH.
Qed.

Lemma remove_snoc_same c l : ClassList.remove c (l ++ [c]) = ClassList.remove c l.
Proof.
  unfold ClassList.remove. rewrite filter_app, filter_cons_False, filter_nil by (intros H; by apply H).
  by rewrite app_nil_r.
Qed.

Lemma remove_snoc_other c c' l :
  c' ≠ c → ClassList.remove c (l ++ [c']) = ClassList.remove c l ++ [c'].
Proof.
  intros H. unfold ClassList.remove. by rewrite filter_app, filter_cons_True.
Qed.

Lemma remove_add_same c l : ClassList.remove c (ClassList.add c l) = ClassList.remove c l.
Proof. unfold ClassList.add. destruct (ClassList.contains c l); [done|]. apply remove_snoc_same. Qed.

Lemma not_elem_of_remove c l : c ∉ ClassList.remove c l.
Proof. rewrite elem_of_remove. tauto. Qed.

Lemma add_not_elem c l : c ∉ l → ClassList.add c l = l ++ [c].
Proof. intros H. unfold ClassList.add. by rewrite (proj2 (contains_false c l) H). Qed.

(** The class list [applyTheme] leaves on [body], as a function of the one
    it finds. *)
Lemma applyTheme_as_update (theme : string) s :
  Theme.applyTheme theme s =
  set_document
    (update (set_classList (λ l,
       let cleared := ClassList.remove "light-theme" (ClassList.remove "dark-theme" l) in
       if decide (theme = Theme.DARK) then ClassList.add "dark-theme" cleared
       else if decide (theme = Theme.LIGHT) then ClassList.add "light-theme" cleared
       else cleared)) 0) s.
Proof. unfold Theme.applyTheme. by repeat case_decide. Qed.

Lemma cleared_fixed l :
  ("dark-theme" ∉ ClassList.remove "light-theme" (ClassList.remove "dark-theme" l))
  ∧ ("light-theme" ∉ ClassList.remove "light-theme" (ClassList.remove "dark-theme" l)).
Proof.
  split; [|apply not_elem_of_remove].
  rewrite elem_of_remove. intros [H _]. by apply not_elem_of_remove in H.
Qed.

Lemma theme_classes_idemp (theme : string) l :
  let F := (λ l,
    let cleared := ClassList.remove "light-theme" (ClassList.remove "dark-theme" l) in
    if decide (theme = Theme.DARK) then ClassList.add "dark-theme" cleared
    else if decide (theme = Theme.LIGHT) then ClassList.add "light-theme" cleared
    else cleared) in
  F (F l) = F l.
Proof.
  cbv zeta. destruct (cleared_fixed l) as [Hd Hl].
  set (X := ClassList.remove "light-theme" (ClassList.remove "dark-theme" l)) in *.
  assert (HX : ClassList.remove "light-theme" (ClassList.remove "dark-theme" X) = X)
    by by rewrite (remove_not_elem "dark-theme" X), (remove_not_elem "light-theme" X).
  repeat case_decide.
  - by rewrite remove_add_same, HX.
  - rewrite (add_not_elem "light-theme" X) by done.
    rewrite remove_snoc_other by done. rewrite remove_snoc_same.
    by rewrite HX, add_not_elem.
  - done.
Qed.

Lemma applyTheme_fields (theme : string) s :
  localStorage (Theme.applyTheme theme s) = localStorage s
  ∧ listeners (Theme.applyTheme theme s) = listeners s.
Proof. unfold Theme.applyTheme. by repeat case_decide. Qed.

Lemma updateToggleButton_fields (theme : string) s :
  localStorage (Theme.updateToggleButton theme s) = localStorage s
  ∧ listeners (Theme.updateToggleButton theme s) = listeners s
  ∧ pathname (Theme.updateToggleButton theme s) = pathname s.
Proof. unfold Theme.updateToggleButton. by destruct (getElementById _ _). Qed.

Lemma setupToggleButton_fields s :
  body_classes (Theme.setupToggleButton s) = body_classes s
  ∧ prefersDark (Theme.setupToggleButton s) = prefersDark s
  ∧ localStorage (Theme.setupToggleButton s) = localStorage s
  ∧ handlers_for DarkModeQuery "change" (Theme.setupToggleButton s)
    = handlers_for DarkModeQuery "change" s.
Proof.
  unfold Theme.setupToggleButton. destruct (getElementById _ _) as [btn|]; [|done].
  split; [|split; [|split]].
  - apply (updateToggleButton_body_classes _ s).
  - apply (updateToggleButton_prefersDark _ s).
  - apply (updateToggleButton_fields _ s).
  - rewrite handlers_for_addEventListener_off by (right; done).
    apply handlers_for_DarkModeQuery_agree, (updateToggleButton_fields _ s).
Qed.

(** Is the stored preference one that follows the system? *)
Lemma init_cases s :
  (Theme.getSavedTheme s = None ∨ Theme.getSavedTheme s = Some Theme.AUTO
   ∨ Theme.getSavedTheme s = Some "") ∧
  Theme.init s = Theme.setupToggleButton (Theme.watchSystemTheme (Theme.applySystemTheme s))
  ∨ (∃ t, Theme.getSavedTheme s = Some t ∧ t ≠ Theme.AUTO ∧ t ≠ ""
          ∧ Theme.init s = Theme.setupToggleButton (Theme.applyTheme t s)).
Proof.
  unfold Theme.init. destruct (Theme.getSavedTheme s) as [t|]; [|left; auto].
  repeat case_decide; subst; [left; auto | left; auto | right; eauto].
Qed.

End ThemeMore.

(** X1: applying the same theme twice gives the same state as applying it
    once, for every value. *)
Theorem X1_applyTheme_idempotent (theme : string) (s : state) :
  Theme.applyTheme theme (Theme.applyTheme theme s) = Theme.applyTheme theme s.
Proof.
  rewrite !applyTheme_as_update.
  unfold set_document, update, set_classList. simpl. do 3 f_equal.
  apply (theme_classes_idemp theme (classList (body (document s)))).
Qed.

(** X2: after [Theme.init()] the current theme is the stored one when
    "dark" or "light" is stored, and the theme of the system preference in
    every other case (nothing stored, "auto", the empty string, any other
    text); [init] writes nothing to storage. *)
Theorem X2_init_current_theme (s : state) :
  Theme.getCurrentTheme (Theme.init s) =
  match Theme.getSavedTheme s with
  | Some t => if decide (t = Theme.DARK ∨ t = Theme.LIGHT) then t
              else systemTheme (prefersDark s)
  | None => systemTheme (prefersDark s)
  end
  ∧ localStorage (Theme.init s) = localStorage s.
Proof.
  assert (Hsys : Theme.getCurrentTheme
                   (Theme.setupToggleButton (Theme.watchSystemTheme (Theme.applySystemTheme s)))
                 = systemTheme (prefersDark s)).
  { destruct (setupToggleButton_fields
                (Theme.watchSystemTheme (Theme.applySystemTheme s))) as (Hb & Hp & _).
    rewrite (getCurrentTheme_ext _ (Theme.applySystemTheme s)) by done.
    unfold Theme.applySystemTheme, systemTheme.
    apply getCurrentTheme_applyTheme. destruct (prefersDark s); auto. }
  split.
  - destruct (init_cases s) as [[Hs ->] | (t & Hs & Ha & He & ->)].
    + rewrite Hsys. destruct Hs as [-> | [-> | ->]]; done.
    + rewrite Hs. destruct (setupToggleButton_fields (Theme.applyTheme t s)) as (Hb & Hp & _).
      rewrite (getCurrentTheme_ext _ (Theme.applyTheme t s)) by done.
      case_decide as Ht; [by apply getCurrentTheme_applyTheme|].
      unfold Theme.getCurrentTheme.
      fold (body_classes (Theme.applyTheme t s)).
      rewrite contains_dark_applyTheme, contains_light_applyTheme, applyTheme_prefersDark.
      rewrite !bool_decide_eq_false_2 by tauto. done.
  - destruct (init_cases s) as [[_ ->] | (t & _ & _ & _ & ->)].
    + rewrite (proj1 (proj2 (proj2 (setupToggleButton_fields _)))).
      apply (applyTheme_fields _ s).
    + rewrite (proj1 (proj2 (proj2 (setupToggleButton_fields _)))).
      apply (applyTheme_fields _ s).
Qed.

Section ThemeSystem.

Implicit Types (s : state).

Lemma toggle_unfold s :
  Theme.toggle s =
  let new := if decide (Theme.getCurrentTheme s = Theme.DARK) then Theme.LIGHT else Theme.DARK in
  Theme.updateToggleButton new (Theme.saveTheme new (Theme.applyTheme new s)).
Proof. done. Qed.

Lemma toggle_fields s :
  localStorage (Theme.toggle s)
  = <[Theme.STORAGE_KEY := Theme.getCurrentTheme (Theme.toggle s)]> (localStorage s)
  ∧ listeners (Theme.toggle s) = listeners s.
Proof.
  rewrite getCurrentTheme_toggle, toggle_unfold. cbv zeta.
  set (new := if decide _ then _ else _).
  destruct (updateToggleButton_fields new (Theme.saveTheme new (Theme.applyTheme new s)))
    as (-> & -> & _).
  unfold Theme.saveTheme, setItem. cbn [localStorage listeners set_localStorage].
  by destruct (applyTheme_fields new s) as [-> ->].
Qed.

(** With an explicit theme stored the listener of the media query does
    nothing. *)
Lemma onSystemThemeChange_explicit (dark : bool) s (t : string) :
  Theme.getSavedTheme s = Some t → t ≠ Theme.AUTO → t ≠ "" →
  Theme.onSystemThemeChange dark s = s.
Proof.
  intros Hs Ha He. unfold Theme.onSystemThemeChange. rewrite Hs.
  by rewrite !decide_False.
Qed.

Lemma onSystemThemeChange_following (dark : bool) s :
  Theme.getSavedTheme s = None ∨ Theme.getSavedTheme s = Some Theme.AUTO
  ∨ Theme.getSavedTheme s = Some "" →
  Theme.onSystemThemeChange dark s = Theme.applyTheme (systemTheme dark) s.
Proof.
  unfold Theme.onSystemThemeChange, systemTheme. by intros [-> | [-> | ->]].
Qed.

Lemma getElementById_update_classList (id : string) (f : list string → list string)
    (r : ref) (d : dom) :
  getElementById id (update (set_classList f) r d) = getElementById id d.
Proof.
  unfold getElementById. rewrite length_nodes_update. f_equal.
  apply list_filter_iff. intros x. unfold connected. rewrite lookup_update.
  case_decide; [|done]. by destruct (nodes d !! x).
Qed.

Lemma getElementById_applyTheme (id theme : string) s :
  getElementById id (document (Theme.applyTheme theme s)) = getElementById id (document s).
Proof.
  rewrite applyTheme_as_update. cbn [document set_document].
  apply getElementById_update_classList.
Qed.

(** The theme classes of [body] and the icon of the button do not change
    what an event on the button runs. *)
Lemma handlers_for_applyTheme (t : target) (type theme : string) s :
  handlers_for t type (Theme.applyTheme theme s) = handlers_for t type s.
Proof.
  rewrite applyTheme_as_update. apply handlers_for_set_document.
  intros x. by apply parent_update.
Qed.

Lemma handlers_for_updateToggleButton (btn : ref) (type theme : string) s :
  getElementById "theme-toggle" (document s) = Some btn →
  handlers_for (Element btn) type (Theme.updateToggleButton theme s)
  = handlers_for (Element btn) type s.
Proof.
  intros Hbtn. unfold Theme.updateToggleButton. rewrite Hbtn.
  rewrite handlers_for_set_document by (intros x; by apply parent_update).
  apply handlers_for_agree; [done|]. apply event_path_replace_children.
Qed.

Lemma getSavedTheme_toggle s :
  Theme.getSavedTheme (Theme.toggle s) = Some (Theme.getCurrentTheme (Theme.toggle s)).
Proof.
  unfold Theme.getSavedTheme, getItem. rewrite (proj1 (toggle_fields s)).
  apply lookup_insert_eq.
Qed.

End ThemeSystem.

(** X3: [toggle()] stores the theme it switches to: afterwards the stored
    preference is the current theme, it differs from the theme before, and
    it is never "auto"; after a second [toggle()] the stored preference is
    the theme that was current at the start. *)
Theorem X3_toggle_persists (s : state) :
  Theme.getSavedTheme (Theme.toggle s) = Some (Theme.getCurrentTheme (Theme.toggle s))
  ∧ Theme.getCurrentTheme (Theme.toggle s) ≠ Theme.getCurrentTheme s
  ∧ Theme.getSavedTheme (Theme.toggle s) ≠ Some Theme.AUTO
  ∧ Theme.getSavedTheme (Theme.toggle (Theme.toggle s)) = Some (Theme.getCurrentTheme s).
Proof.
  pose proof (getSavedTheme_toggle s) as Hsaved.
  split; [done|]. rewrite Hsaved, getSavedTheme_toggle, !getCurrentTheme_toggle.
  destruct (getCurrentTheme_cases s) as [-> | ->]; repeat split; done.
Qed.

(** X4: after [Theme.init()], when the system preference changes, the
    current theme follows it unless "dark" or "light" is stored, in which
    case the stored theme stays. The media query has no listener before
    [init]. *)
Theorem X4_system_change_after_init (s : state) (dark : bool) :
  handlers_for DarkModeQuery "change" s = [] →
  Theme.getCurrentTheme (systemThemeChanged dark (Theme.init s)) =
  match Theme.getSavedTheme s with
  | Some t => if decide (t = Theme.DARK ∨ t = Theme.LIGHT) then t else systemTheme dark
  | None => systemTheme dark
  end.
Proof.
  intros Hnone. unfold systemThemeChanged, dispatch. cbn [event_type].
  change (handlers_for DarkModeQuery "change" (set_prefersDark dark (Theme.init s)))
    with (handlers_for DarkModeQuery "change" (Theme.init s)).
  destruct (init_cases s) as [[Hs ->] | (t & Hs & Ha & He & ->)].
  - destruct (setupToggleButton_fields (Theme.watchSystemTheme (Theme.applySystemTheme s)))
      as (_ & _ & Hl & ->).
    unfold Theme.watchSystemTheme at 1. rewrite handlers_for_DarkModeQuery_addEventListener.
    assert (handlers_for DarkModeQuery "change" (Theme.applySystemTheme s) = []) as ->.
    { rewrite <- Hnone. apply handlers_for_DarkModeQuery_agree, (applyTheme_fields _ s). }
    cbn [app forEach foldl run_handler].
    rewrite onSystemThemeChange_following.
    + assert (Theme.getCurrentTheme (Theme.applyTheme (systemTheme dark)
                (set_prefersDark dark (Theme.setupToggleButton
                   (Theme.watchSystemTheme (Theme.applySystemTheme s)))))
              = systemTheme dark) as ->.
      { apply getCurrentTheme_applyTheme. unfold systemTheme. destruct dark; auto. }
      destruct Hs as [-> | [-> | ->]]; done.
    + unfold Theme.getSavedTheme, getItem in *. cbn [localStorage set_prefersDark].
      rewrite Hl. unfold Theme.watchSystemTheme, Theme.applySystemTheme.
      cbn [localStorage addEventListener set_listeners].
      by rewrite (proj1 (applyTheme_fields _ s)).
  - destruct (setupToggleButton_fields (Theme.applyTheme t s)) as (Hb & _ & _ & ->).
    assert (handlers_for DarkModeQuery "change" (Theme.applyTheme t s) = []) as ->.
    { rewrite <- Hnone. apply handlers_for_DarkModeQuery_agree, (applyTheme_fields _ s). }
    cbn [forEach foldl]. rewrite Hs.
    unfold Theme.getCurrentTheme.
    change (classList (body (document (set_prefersDark dark
              (Theme.setupToggleButton (Theme.applyTheme t s))))))
      with (body_classes (Theme.setupToggleButton (Theme.applyTheme t s))).
    rewrite Hb, contains_dark_applyTheme, contains_light_applyTheme.
    cbn [prefersDark set_prefersDark]. unfold systemTheme.
    destruct (decide (t = Theme.DARK)) as [->|Hd]; [done|].
    destruct (decide (t = Theme.LIGHT)) as [->|Hli]; [done|].
    rewrite (bool_decide_eq_false_2 _ Hd), (bool_decide_eq_false_2 _ Hli).
    rewrite decide_False by tauto. done.
Qed.

Lemma X4_witness :
  Theme.getCurrentTheme (systemThemeChanged true (Theme.init (Sample.start "/")))
  = systemTheme true.
Proof. exact (X4_system_change_after_init (Sample.start "/") true eq_refl). Defined.

(** X5: once [toggle()] has stored an explicit theme, a change of the
    system preference runs the listener of [watchSystemTheme] without any
    effect: the page keeps the toggled theme. Nothing but that listener
    listens on the media query. *)
Theorem X5_toggle_stops_following (s : state) (dark : bool) :
  (∀ h, h ∈ handlers_for DarkModeQuery "change" s → h = SystemThemeChange) →
  systemThemeChanged dark (Theme.toggle s) = set_prefersDark dark (Theme.toggle s)
  ∧ Theme.getCurrentTheme (systemThemeChanged dark (Theme.toggle s))
    = Theme.getCurrentTheme (Theme.toggle s).
Proof.
  intros Hall.
  assert (Hid : systemThemeChanged dark (Theme.toggle s)
                = set_prefersDark dark (Theme.toggle s)).
  { unfold systemThemeChanged, dispatch. cbn [event_type].
    change (handlers_for DarkModeQuery "change" (set_prefersDark dark (Theme.toggle s)))
      with (handlers_for DarkModeQuery "change" (Theme.toggle s)).
    assert (handlers_for DarkModeQuery "change" (Theme.toggle s)
            = handlers_for DarkModeQuery "change" s) as ->.
    { apply handlers_for_DarkModeQuery_agree, (toggle_fields s). }
    induction (handlers_for DarkModeQuery "change" s) as [|h hs IH]; [done|].
    cbn [forEach foldl]. rewrite (Hall h) by apply list_elem_of_here.
    cbn [run_handler].
    rewrite (onSystemThemeChange_explicit dark _ (Theme.getCurrentTheme (Theme.toggle s))).
    - apply IH. intros h' Hh'. apply Hall. by apply list_elem_of_further.
    - apply (getSavedTheme_toggle s).
    - rewrite getCurrentTheme_toggle. by case_decide.
    - rewrite getCurrentTheme_toggle. by case_decide. }
  split; [done|]. rewrite Hid.
  unfold Theme.getCurrentTheme. cbn [document prefersDark set_prefersDark].
  fold (body_classes (Theme.toggle s)).
  destruct (getCurrentTheme_cases s) as [Hc | Hc].
  - assert (Hb : body_classes (Theme.toggle s)
                 = body_classes (Theme.applyTheme Theme.LIGHT s)).
    { rewrite toggle_unfold. cbv zeta. rewrite Hc. cbn [decide].
      by rewrite updateToggleButton_body_classes. }
    rewrite Hb, contains_dark_applyTheme, contains_light_applyTheme. done.
  - assert (Hb : body_classes (Theme.toggle s)
                 = body_classes (Theme.applyTheme Theme.DARK s)).
    { rewrite toggle_unfold. cbv zeta. rewrite Hc.
      by rewrite updateToggleButton_body_classes. }
    rewrite Hb, contains_dark_applyTheme. done.
Qed.

Lemma X5_witness :
  Theme.getCurrentTheme
    (systemThemeChanged false (Theme.toggle (Theme.init (Sample.start "/"))))
  = Theme.getCurrentTheme (Theme.toggle (Theme.init (Sample.start "/"))).
Proof.
  refine (proj2 (X5_toggle_stops_following (Theme.init (Sample.start "/")) false _)).
  intros h Hh. vm_compute in Hh. apply list_elem_of_singleton in Hh. exact Hh.
Defined.

(** X6: [toggle()] keeps the toggle button in step with the theme: on a
    page that has the button, after the call it shows the sun icon and the
    title "Switch to light mode" when the current theme is dark, the moon
    icon and "Switch to dark mode" when it is light. *)
Theorem X6_toggle_button_in_sync (s : state) (btn : ref) :
  getElementById "theme-toggle" (document s) = Some btn →
  ∃ e, nodes (document (Theme.toggle s)) !! btn = Some e
       ∧ innerHTML e = Some (if decide (Theme.getCurrentTheme (Theme.toggle s) = Theme.DARK)
                             then sunIcon else moonIcon)
       ∧ getAttribute "title" e
         = Some (if decide (Theme.getCurrentTheme (Theme.toggle s) = Theme.DARK)
                 then "Switch to light mode" else "Switch to dark mode").
Proof.
  intros Hbtn. rewrite getCurrentTheme_toggle, toggle_unfold. cbv zeta.
  set (new := if decide _ then _ else _).
  unfold Theme.updateToggleButton.
  change (document (Theme.saveTheme new (Theme.applyTheme new s)))
    with (document (Theme.applyTheme new s)).
  rewrite getElementById_applyTheme, Hbtn.
  cbn [document set_document].
  change (document (Theme.saveTheme new (Theme.applyTheme new s)))
    with (document (Theme.applyTheme new s)).
  set (d := document (Theme.applyTheme new s)).
  assert (Hin : is_Some (nodes d !! btn)).
  { apply lookup_lt_is_Some. unfold d. rewrite applyTheme_as_update.
    cbn [document set_document]. rewrite length_nodes_update.
    apply lookup_lt_is_Some. by apply (getElementById_Some "theme-toggle"). }
  unfold Theme.assign_innerHTML. rewrite lookup_update, decide_True by done.
  destruct (lookup_replace_children
              [IconNode (if decide (new = Theme.DARK) then sunIcon else moonIcon)] btn d Hin)
    as (e0 & -> & Hc).
  eexists. split; [done|]. split.
  - unfold innerHTML, setAttribute. cbn [childNodes set_attributes]. by rewrite Hc.
  - unfold getAttribute, setAttribute. cbn [attributes set_attributes].
    apply lookup_insert_eq.
Qed.

Lemma X6_witness :
  ∃ e, nodes (document (Theme.toggle (Sample.start "/"))) !! 1 = Some e
       ∧ innerHTML e = Some (if decide (Theme.getCurrentTheme (Theme.toggle (Sample.start "/"))
                                        = Theme.DARK)
                             then sunIcon else moonIcon)
       ∧ getAttribute "title" e
         = Some (if decide (Theme.getCurrentTheme (Theme.toggle (Sample.start "/"))
                            = Theme.DARK)
                 then "Switch to light mode" else "Switch to dark mode").
Proof. exact (X6_toggle_button_in_sync (Sample.start "/") 1 eq_refl). Defined.

(** ** Language: detection from the path and the language links *)

Section LanguageMore.

Implicit Types (s : state) (p g : string).

Lemma elem_of_SUPPORTED g :
  g ∈ Language.SUPPORTED ↔
  g = "it" ∨ g = "en" ∨ g = "es" ∨ g = "de" ∨ g = "fr" ∨ g = "pt_BR".
Proof.
  unfold Language.SUPPORTED. rewrite !elem_of_cons, elem_of_nil. tauto.
Qed.

(** The path [switch] navigates to is recognised as its language. *)
Lemma match_lang_language_url (path g : string) :
  g ∈ Language.SUPPORTED → Language.match_lang (language_url path g) = Some g.
Proof.
  intros Hg. unfold language_url.
  generalize (or_default (last_part (split "/" path)) "index.html"). intros page.
  apply elem_of_SUPPORTED in Hg.
  destruct (includes path "/jwtime/"), page;
    destruct Hg as [-> | [-> | [-> | [-> | [-> | ->]]]]]; reflexivity.
Qed.

Lemma startsWith_slash (rest q : string) :
  startsWith (String "/" rest) ("/" +:+ q) = startsWith rest q.
Proof. done. Qed.

Lemma includes_cons (c : ascii) (rest x : string) :
  includes (String c rest) x = startsWith (String c rest) x || includes rest x.
Proof. done. Qed.

(** Soundness of the detection: what is found stands between two slashes
    of the path. *)
Lemma match_lang_segment p g :
  Language.match_lang p = Some g → includes p ("/" +:+ g +:+ "/") = true.
Proof.
  induction p as [|c rest IH]; rewrite match_lang_unfold; [done|].
  destruct (Language.match_here (String c rest)) as [g'|] eqn:E.
  - intros [= ->]. rewrite includes_cons. apply orb_true_iff. left.
    unfold Language.match_here in E.
    destruct (decide (c = "/"%char)) as [->|Hc].
    + apply head_Some_elem_of, list_elem_of_filter in E as [E _].
      rewrite startsWith_slash. by apply Is_true_true in E.
    + destruct c as [[] [] [] [] [] [] [] []]; done.
  - intros H. rewrite includes_cons, (IH H). apply orb_true_r.
Qed.

(** Completeness: a path with a supported language between two slashes is
    never missed. *)
Lemma match_lang_complete p g :
  g ∈ Language.SUPPORTED → includes p ("/" +:+ g +:+ "/") = true →
  is_Some (Language.match_lang p).
Proof.
  intros Hg. induction p as [|c rest IH]; [done|].
  rewrite includes_cons, match_lang_unfold. intros H.
  destruct (Language.match_here (String c rest)) as [g'|] eqn:E; [by eexists|].
  apply orb_true_iff in H as [H|H]; [|by apply IH].
  exfalso. change ("/" +:+ g +:+ "/") with (String "/" (g +:+ "/")) in H.
  cbn [startsWith] in H. case_decide as Hc; [subst c|done].
  unfold Language.match_here in E. apply head_None in E.
  assert (Hin : g ∈ filter (λ alt, startsWith rest (alt +:+ "/"))
                           Language.PATTERN_ALTERNATIVES).
  { apply list_elem_of_filter. split; [by apply Is_true_true|].
    by rewrite pattern_alternatives_supported. }
  rewrite E in Hin. by apply elem_of_nil in Hin.
Qed.






End LanguageMore.

(** X7: the URL that [switch(L)] navigates to is recognised by
    [detectAndSaveCurrentLanguage()] as the language L: on a page under
    that path it stores L, and right after the switch it finds L stored
    already and changes nothing in storage. *)
Theorem X7_switch_then_detect (L path : string) (s : state) :
  L ∈ Language.SUPPORTED →
  Language.get (Language.detectAndSaveCurrentLanguage (set_pathname (language_url path L) s))
  = Some L
  ∧ localStorage
      (Language.detectAndSaveCurrentLanguage
         (set_pathname (language_url (pathname s) L) (Language.switch L s)))
    = localStorage (Language.switch L s).
Proof.
  intros HL. unfold Language.detectAndSaveCurrentLanguage.
  cbn [pathname set_pathname]. rewrite !match_lang_language_url by done.
  rewrite !save_supported by done. split.
  - unfold Language.get, getItem. cbn [localStorage setItem set_localStorage set_pathname].
    apply lookup_insert_eq.
  - rewrite switch_supported by done.
    cbn [localStorage setItem set_localStorage set_pathname set_href].
    apply insert_insert_eq.
Qed.

Lemma X7_witness :
  Language.get (Language.detectAndSaveCurrentLanguage
                  (set_pathname (language_url "/jwtime/it/manual.html" "pt_BR")
                                (Sample.start "/")))
  = Some "pt_BR".
Proof.
  refine (proj1 (X7_switch_then_detect "pt_BR" "/jwtime/it/manual.html" (Sample.start "/") _)).
  compute_done.
Defined.

(** X8: [detectAndSaveCurrentLanguage()] stores a language exactly when the
    path holds a supported language between two slashes, and what it stores
    is such a segment of the path; on any other path it leaves the state as
    it is. *)
Theorem X8_detect_path_segment (s : state) :
  match Language.match_lang (pathname s) with
  | Some g =>
      g ∈ Language.SUPPORTED
      ∧ includes (pathname s) ("/" +:+ g +:+ "/") = true
      ∧ Language.detectAndSaveCurrentLanguage s = setItem Language.STORAGE_KEY g s
  | None =>
      (∀ L, L ∈ Language.SUPPORTED → includes (pathname s) ("/" +:+ L +:+ "/") = false)
      ∧ Language.detectAndSaveCurrentLanguage s = s
  end.
Proof.
  unfold Language.detectAndSaveCurrentLanguage.
  destruct (Language.match_lang (pathname s)) as [g|] eqn:E.
  - assert (Hg : g ∈ Language.SUPPORTED).
    { rewrite <- pattern_alternatives_supported. by apply (match_lang_alternative (pathname s)). }
    split; [done|]. split; [by apply match_lang_segment | by apply save_supported].
  - split; [|done]. intros L HL.
    destruct (includes (pathname s) ("/" +:+ L +:+ "/")) eqn:Hi; [|done].
    destruct (match_lang_complete (pathname s) L HL Hi) as [g Hg]. congruence.
Qed.



(** ** Navigation: what [setActiveLink] touches, and unusual hrefs *)

(** X10: [setActiveLink()] changes nothing but the class "active" of the
    anchors below [.nav]: every other node stays as it is, a navigation
    anchor is left alone or has "active" added or removed, and storage,
    listeners and location are untouched. *)
Theorem X10_setActiveLink_frame (s : state) :
  let s' := Navigation.setActiveLink s in
  localStorage s' = localStorage s
  ∧ listeners s' = listeners s
  ∧ navigation s' = navigation s
  ∧ length (nodes (document s')) = length (nodes (document s))
  ∧ (∀ r, r ∉ navLinks (document s) →
          nodes (document s') !! r = nodes (document s) !! r)
  ∧ (∀ r e, nodes (document s) !! r = Some e →
            nodes (document s') !! r = Some (set_classList (ClassList.add "active") e)
            ∨ nodes (document s') !! r = Some (set_classList (ClassList.remove "active") e)
            ∨ nodes (document s') !! r = Some e).
Proof.
  cbv zeta. rewrite setActiveLink_document. do 3 (split; [done|]).
  rewrite <- setActiveLink_document. split; [|split].
  - rewrite setActiveLink_document. cbn [document set_document].
    apply length_nodes_forEach_update.
  - intros r Hr. by rewrite setActiveLink_lookup, decide_False.
  - intros r e He. rewrite setActiveLink_lookup, He. case_decide; [|auto].
    cbn [fmap option_fmap option_map]. unfold Navigation.markLink.
    destruct (_ && _); auto.
Qed.

(** X11: two unusual anchors below [.nav]. One with an empty href is
    marked active on every page, since the empty text occurs in every
    path. One without href is compared as the text "null": it is active
    exactly on the paths that contain "null". *)
Theorem X11_setActiveLink_odd_hrefs (s : state) (r : ref) (e : element) :
  r ∈ navLinks (document s) →
  nodes (document s) !! r = Some e →
  (getAttribute "href" e = Some "" →
   has_class "active" r (Navigation.setActiveLink s) = true)
  ∧ (getAttribute "href" e = None →
     has_class "active" r (Navigation.setActiveLink s) = includes (pathname s) "null").
Proof.
  intros Hr He. unfold has_class.
  rewrite setActiveLink_lookup, decide_True, He by done.
  cbn [fmap option_fmap option_map]. rewrite markLink_active.
  split; intros ->; cbn [Navigation.toString default].
  - by rewrite includes_empty.
  - by rewrite andb_true_r.
Qed.

Lemma X11_witness :
  has_class "active" 5 (Navigation.setActiveLink (Sample.start_bare_anchor "/en/null.html"))
  = includes "/en/null.html" "null".
Proof.
  assert (Hr : 5 ∈ navLinks (document (Sample.start_bare_anchor "/en/null.html")))
    by compute_done.
  exact (proj2 (X11_setActiveLink_odd_hrefs (Sample.start_bare_anchor "/en/null.html") 5 _
                  Hr eq_refl) eq_refl).
Defined.

(** X12: [setupMobileMenu()] does not check for an earlier binding. Called
    twice it leaves two listeners on the toggle, a click runs both, and the
    class "active" ends where it was on every element: the menu no longer
    opens. *)
Theorem X12_setupMobileMenu_twice (s : state) (m n : ref) :
  getElementById "mobile-menu-toggle" (document s) = Some m →
  querySelector (SelClass "nav") (document s) = Some n →
  handlers_for (Element m) "click" s = [] →
  let s2 := Navigation.setupMobileMenu (Navigation.setupMobileMenu s) in
  handlers_for (Element m) "click" s2 = [MobileMenuClick m n; MobileMenuClick m n]
  ∧ ∀ r, has_class "active" r (click m s2) = has_class "active" r s.
Proof.
  intros Hm Hn Hnone. cbv zeta.
  assert (H1 : Navigation.setupMobileMenu s
               = addEventListener (Element m) "click" (MobileMenuClick m n) s).
  { unfold Navigation.setupMobileMenu. by rewrite Hm, Hn. }
  assert (H2 : Navigation.setupMobileMenu (Navigation.setupMobileMenu s)
               = addEventListener (Element m) "click" (MobileMenuClick m n)
                   (addEventListener (Element m) "click" (MobileMenuClick m n) s)).
  { rewrite H1. unfold Navigation.setupMobileMenu.
    cbn [document addEventListener set_listeners]. by rewrite Hm, Hn. }
  rewrite H2.
  assert (Hh : handlers_for (Element m) "click"
                 (addEventListener (Element m) "click" (MobileMenuClick m n)
                    (addEventListener (Element m) "click" (MobileMenuClick m n) s))
               = [MobileMenuClick m n; MobileMenuClick m n]).
  { destruct (handlers_for_nil _ _ _ Hnone) as [Hm0 Ha0].
    rewrite handlers_for_quiet.
    - by rewrite !listeners_on_addEventListener, !decide_True, Hm0 by done.
    - intros a Ha. cbn [document addEventListener set_listeners] in Ha.
      rewrite !listeners_on_above_addEventListener by done. by apply Ha0. }
  split; [done|]. intros r. unfold click, dispatch. cbn [event_type]. rewrite Hh.
  cbn [forEach foldl run_handler].
  set (s2 := addEventListener _ _ _ (addEventListener _ _ _ s)).
  apply getElementById_Some in Hm. apply querySelector_Some in Hn.
  change (document s) with (document s2) in Hm, Hn.
  destruct (onMobileMenuClick_keeps m n s2) as [_ Hk].
  rewrite !onMobileMenuClick_has_class by auto.
  change (has_class "active" r s2) with (has_class "active" r s).
  destruct (decide (m = n)); [done|].
  destruct (decide (r = m ∨ r = n)); [apply negb_involutive | done].
Qed.

Lemma X12_witness :
  has_class "active" 3
    (click 2 (Navigation.setupMobileMenu (Navigation.setupMobileMenu (Sample.start "/"))))
  = has_class "active" 3 (Sample.start "/").
Proof.
  exact (proj2 (X12_setupMobileMenu_twice (Sample.start "/") 2 3 eq_refl eq_refl eq_refl) 3).
Defined.

(** ** Utilities: external links *)

Section ExternalLinksMore.

Implicit Types (s : state) (d : dom) (e : element) (h : string).

Lemma markExternal_fields h e :
  tagName (Utils.markExternal h e) = tagName e
  ∧ isConnected (Utils.markExternal h e) = isConnected e
  ∧ hostname (Utils.markExternal h e) = hostname e
  ∧ getAttribute "href" (Utils.markExternal h e) = getAttribute "href" e.
Proof.
  unfold Utils.markExternal. destruct (negb _); [|done].
  repeat split. unfold getAttribute, setAttribute. cbn [attributes set_attributes].
  by rewrite !lookup_insert_ne.
Qed.

Lemma markExternal_idemp h e :
  Utils.markExternal h (Utils.markExternal h e) = Utils.markExternal h e.
Proof.
  unfold Utils.markExternal at 1.
  rewrite (proj1 (proj2 (proj2 (markExternal_fields h e)))).
  unfold Utils.markExternal. destruct (negb _); [|done].
  unfold setAttribute, set_attributes. cbn. f_equal.
  apply map_eq. intros k.
  destruct (decide (k = "rel")) as [->|Hr]; [by rewrite !lookup_insert_eq|].
  rewrite !(lookup_insert_ne _ "rel") by done.
  destruct (decide (k = "target")) as [->|Ht]; [by rewrite !lookup_insert_eq|].
  rewrite !(lookup_insert_ne _ "target") by done.
  by rewrite !(lookup_insert_ne _ "rel"), !(lookup_insert_ne _ "target") by done.
Qed.

(** The selection of [a[href^="http"]] looks at the tag, the href and the
    connection to the document only. *)
Lemma httpAnchors_stable d d' :
  length (nodes d') = length (nodes d) →
  (∀ r e, nodes d !! r = Some e →
          ∃ e', nodes d' !! r = Some e' ∧ tagName e' = tagName e
                ∧ isConnected e' = isConnected e
                ∧ getAttribute "href" e' = getAttribute "href" e) →
  httpAnchors d' = httpAnchors d.
Proof.
  intros Hlen Hn. unfold httpAnchors, querySelectorAll. rewrite Hlen.
  apply list_filter_iff. intros r. unfold connected. cbn [matches].
  destruct (nodes d !! r) as [e|] eqn:E.
  - destruct (Hn r e E) as (e' & -> & -> & -> & Hh). cbn [mbind option_bind].
    by rewrite Hh.
  - assert (nodes d' !! r = None) as ->; [|done].
    apply lookup_ge_None. rewrite Hlen. by apply lookup_ge_None.
Qed.

Lemma httpAnchors_setupExternalLinks s :
  httpAnchors (document (Utils.setupExternalLinks s)) = httpAnchors (document s).
Proof.
  apply httpAnchors_stable.
  - rewrite setupExternalLinks_document. cbn [document set_document].
    apply length_nodes_forEach_update.
  - intros r e He. rewrite setupExternalLinks_lookup, He. case_decide.
    + eexists. split; [done|].
      destruct (markExternal_fields (location_hostname s) e) as (-> & -> & _ & ->). done.
    + by exists e.
Qed.

(** A loop of updates that change no element changes no document. *)
Lemma forEach_update_id (f : element → element) (L : list ref) d :
  (∀ e, f e = e) → forEach (update f) L d = d.
Proof.
  intros Hf. unfold forEach. induction L as [|x L IH]; cbn [foldl]; [done|].
  assert (update f x d = d) as ->; [|done].
  apply dom_eq. rewrite nodes_update. by apply list_alter_id.
Qed.

End ExternalLinksMore.

(** X13: [setupExternalLinks()] is idempotent: a second run finds the same
    anchors and sets the same two attributes to the same values. *)
Theorem X13_setupExternalLinks_idempotent (s : state) :
  Utils.setupExternalLinks (Utils.setupExternalLinks s) = Utils.setupExternalLinks s.
Proof.
  rewrite (setupExternalLinks_document (Utils.setupExternalLinks s)).
  rewrite httpAnchors_setupExternalLinks.
  assert (location_hostname (Utils.setupExternalLinks s) = location_hostname s) as ->
    by by rewrite setupExternalLinks_document.
  apply set_document_fixed, dom_eq, list_eq. intros r.
  rewrite lookup_forEach_update by apply NoDup_querySelectorAll.
  rewrite setupExternalLinks_lookup. case_decide; [|done].
  destruct (nodes (document s) !! r); [|done].
  cbn [fmap option_fmap option_map]. by rewrite markExternal_idemp.
Qed.

(** X14: on a page whose location has an empty host name (a page opened
    from a file), [setupExternalLinks()] changes nothing: the empty text
    occurs in every host name, so no link counts as external. *)
Theorem X14_setupExternalLinks_empty_host (s : state) :
  location_hostname s = "" → Utils.setupExternalLinks s = s.
Proof.
  intros Hh. rewrite setupExternalLinks_document, Hh.
  apply set_document_fixed, forEach_update_id.
  intros e. unfold Utils.markExternal. by rewrite includes_empty.
Qed.

Lemma X14_witness :
  Utils.setupExternalLinks Sample.start_from_file = Sample.start_from_file.
Proof. exact (X14_setupExternalLinks_empty_host Sample.start_from_file eq_refl). Defined.

(** X15: [setupExternalLinks()] touches nothing but the attributes "target"
    and "rel" of connected anchors whose href begins with "http": every
    other node stays as it is, and on every node all other attributes, the
    classes, the children and the text stay; storage, listeners and
    location are untouched. *)
Theorem X15_setupExternalLinks_frame (s : state) :
  let s' := Utils.setupExternalLinks s in
  localStorage s' = localStorage s
  ∧ listeners s' = listeners s
  ∧ navigation s' = navigation s
  ∧ (∀ r, r ∉ httpAnchors (document s) →
          nodes (document s') !! r = nodes (document s) !! r)
  ∧ (∀ r e, nodes (document s) !! r = Some e →
            ∃ e', nodes (document s') !! r = Some e'
                  ∧ classList e' = classList e ∧ childNodes e' = childNodes e
                  ∧ textContent (document s') r = textContent (document s) r
                  ∧ tagName e' = tagName e
                  ∧ ∀ a, a ≠ "target" → a ≠ "rel" → getAttribute a e' = getAttribute a e).
Proof.
  cbv zeta. rewrite setupExternalLinks_document. do 3 (split; [done|]).
  rewrite <- setupExternalLinks_document. split.
  - intros r Hr. by rewrite setupExternalLinks_lookup, decide_False.
  - assert (Htext : ∀ r, textContent (document (Utils.setupExternalLinks s)) r
                         = textContent (document s) r).
    { intros r. apply textContent_agree.
      - rewrite setupExternalLinks_document. cbn [document set_document].
        apply length_nodes_forEach_update.
      - intros x. rewrite setupExternalLinks_lookup. case_decide; [|done].
        destruct (nodes (document s) !! x) as [e|]; [|done]. cbn.
        unfold Utils.markExternal. by destruct (negb _). }
    intros r e He. rewrite setupExternalLinks_lookup, He. case_decide; [|by exists e].
    eexists. split; [done|]. unfold Utils.markExternal. destruct (negb _); [|done].
    repeat split; [apply Htext|]. intros a Ht Hr. unfold getAttribute, setAttribute.
    cbn [attributes set_attributes]. by rewrite !lookup_insert_ne.
Qed.

(** ** Utilities: copy buttons *)

(** X16: [addCopyButtonsToCodeBlocks()] adds exactly one button and one
    click listener per code block below a [pre]: the new nodes are buttons
    labelled "Copy", each appended to the children of the parent of its
    block. The nodes that were there keep tag, attributes, classes, parent
    and connection; their inline style may change, and their children grow
    at the end by buttons of blocks directly below them, so the text of
    such a parent and of everything above it gains the label. No write or
    timer is started. Without code blocks the call changes nothing. *)
Theorem X16_addCopyButtons_per_block (s : state) :
  let s' := Utils.addCopyButtonsToCodeBlocks s in
  let n := length (nodes (document s)) in
  let blocks := codeBlocks (document s) in
  length (nodes (document s')) = n + length blocks
  ∧ listeners s' = listeners s ++ imap (copyListener n) blocks
  ∧ clipboardWrites s' = clipboardWrites s
  ∧ timers s' = timers s
  ∧ (∀ r e, nodes (document s) !! r = Some e →
            ∃ f bs, nodes (document s') !! r
                    = Some (set_style f (set_childNodes (λ l, l ++ (ElementNode <$> bs)) e))
                    ∧ ∀ b, b ∈ bs →
                           ∃ i c, b = n + i ∧ blocks !! i = Some c
                                  ∧ nodes (document s) !! c ≫= parentElement = Some r)
  ∧ (∀ i c, blocks !! i = Some c →
            ∃ p cn, nodes (document s) !! c ≫= parentElement = Some p
                    ∧ nodes (document s') !! (n + i) =
                      Some {| tagName := "button"; attributes := ∅;
                              classList := ["copy-code-btn"]; style := Utils.buttonStyle;
                              childNodes := [TextNode "Copy"]; hostname := "";
                              parentElement := Some p; isConnected := cn |}
                    ∧ label (n + i) s' = Some "Copy"
                    ∧ ∃ e', nodes (document s') !! p = Some e'
                            ∧ ElementNode (n + i) ∈ childNodes e')
  ∧ (blocks = [] → s' = s).
Proof.
  cbv zeta.
  destruct (addCopyButtons_loop (codeBlocks (document s)) (length (nodes (document s))) s)
    as (H1 & H2 & H3 & H4 & H5 & _ & H7).
  { done. }
  { intros c Hc. by apply codeBlocks_parent. }
  change (forEach Utils.addCopyButton (codeBlocks (document s)) s)
    with (Utils.addCopyButtonsToCodeBlocks s) in *.
  do 5 (split; [done|]). split.
  - intros i c Hc. destruct (H7 i c Hc) as (p & cn & Hp & Hb & e' & He' & Hin).
    exists p, cn. split; [done|]. split; [done|]. split.
    + unfold label. rewrite Hb. f_equal. by eapply textContent_text.
    + by exists e'.
  - intros Hnil. unfold Utils.addCopyButtonsToCodeBlocks.
    fold (codeBlocks (document s)). by rewrite Hnil.
Qed.



Section CopyTwice.

Implicit Types (x : state) (c b : ref).

(** A click on the button and the success of its write, as one step. *)
Lemma copy_succeeds x c b :
  is_Some (nodes (document x) !! c) →
  handlers_for (Element b) "click" x = [CopyClick c b] →
  clipboardSettles (length (clipboardWrites x)) true (click b x) = Utils.onCopyDone b x.
Proof.
  intros Hc Hh. rewrite (click_single _ _ _ Hh). cbn [run_handler].
  by rewrite clipboardSettles_after_click.
Qed.

Lemma onCopyDone_keeps x b :
  handlers_for (Element b) "click" (Utils.onCopyDone b x) = handlers_for (Element b) "click" x
  ∧ clipboardWrites (Utils.onCopyDone b x) = clipboardWrites x
  ∧ timers (Utils.onCopyDone b x)
    = timers x ++ [{| t_callback := CopyRevert b; t_delay := 2000 |}]
  ∧ ∀ r, is_Some (nodes (document x) !! r) →
         is_Some (nodes (document (Utils.onCopyDone b x)) !! r).
Proof.
  split; [|do 2 (split; [done|])].
  - apply handlers_for_agree; [done|]. apply event_path_replace_children.
  - intros r Hr. unfold Utils.onCopyDone. cbn [document set_timers set_document].
    by apply lookup_assign_textContent_is_Some.
Qed.

End CopyTwice.

(** X17: the revert timers of two copies are not coordinated. After two
    successful copies in a row both timers are pending and the label reads
    "Copied!"; when the first timer runs out the label goes back to "Copy"
    although the timer of the second copy is still pending. *)
Theorem X17_copy_twice_first_timer_reverts (x : state) (c b : ref) :
  is_Some (nodes (document x) !! c) →
  is_Some (nodes (document x) !! b) →
  handlers_for (Element b) "click" x = [CopyClick c b] →
  let revert := {| t_callback := CopyRevert b; t_delay := 2000 |} in
  let w := length (clipboardWrites x) in
  let x1 := clipboardSettles w true (click b x) in
  let x2 := clipboardSettles w true (click b x1) in
  let x3 := timerFires (length (timers x)) x2 in
  timers x2 = timers x ++ [revert; revert]
  ∧ label b x2 = Some "Copied!"
  ∧ label b x3 = Some "Copy"
  ∧ timers x3 = timers x ++ [revert].
Proof.
  intros Hc Hb Hh. cbv zeta.
  rewrite (copy_succeeds x c b) by done.
  destruct (onCopyDone_keeps x b) as (Hl1 & Hw1 & Ht1 & Hk1).
  assert (Hh1 : handlers_for (Element b) "click" (Utils.onCopyDone b x) = [CopyClick c b]).
  { by rewrite Hl1. }
  rewrite <- Hw1. rewrite (copy_succeeds (Utils.onCopyDone b x) c b) by auto.
  set (x1 := Utils.onCopyDone b x) in *.
  destruct (onCopyDone_keeps x1 b) as (_ & _ & Ht2 & Hk2).
  assert (Ht : timers (Utils.onCopyDone b x1)
               = timers x ++ [{| t_callback := CopyRevert b; t_delay := 2000 |};
                              {| t_callback := CopyRevert b; t_delay := 2000 |}]).
  { rewrite Ht2, Ht1. by rewrite <- app_assoc. }
  split; [done|]. split; [apply label_onCopyDone; auto|].
  unfold timerFires. rewrite Ht, list_lookup_middle by done.
  cbn [t_callback run_callback]. split.
  - apply label_onCopyRevert. cbn [document set_timers]. auto.
  - unfold Utils.onCopyRevert. cbn [timers set_document set_timers].
    by rewrite Ht, delete_middle.
Qed.

Lemma X17_witness :
  let x := Utils.addCopyButtonsToCodeBlocks (Sample.start "/en/manual.html") in
  let x2 := clipboardSettles 0 true (click 12 (clipboardSettles 0 true (click 12 x))) in
  timers x2 = [{| t_callback := CopyRevert 12; t_delay := 2000 |};
               {| t_callback := CopyRevert 12; t_delay := 2000 |}]
  ∧ label 12 x2 = Some "Copied!"
  ∧ label 12 (timerFires 0 x2) = Some "Copy"
  ∧ timers (timerFires 0 x2) = [{| t_callback := CopyRevert 12; t_delay := 2000 |}].
Proof.
  cbv zeta.
  exact (X17_copy_twice_first_timer_reverts
           (Utils.addCopyButtonsToCodeBlocks (Sample.start "/en/manual.html")) 8 12
           (ex_intro _ _ eq_refl) (ex_intro _ _ eq_refl) eq_refl).
Defined.

(** ** Utilities: manual images *)

Section ManualImages.

Implicit Types (s : state) (d : dom) (e : element) (r p img : ref).

Lemma add_contained (c : string) (l : list string) :
  ClassList.contains c l = true → ClassList.add c l = l.
Proof. intros H. unfold ClassList.add. by rewrite H. Qed.

Lemma update_fixed (f : element → element) r d :
  (∀ e, nodes d !! r = Some e → f e = e) → update f r d = d.
Proof.
  intros Hf. apply dom_eq, list_eq. intros x. rewrite lookup_update.
  case_decide; [subst|done]. destruct (nodes d !! x) as [e|] eqn:E; [|done].
  cbn [fmap option_fmap option_map]. by rewrite (Hf e).
Qed.

(** The test before [classList.add] changes nothing: adding the class is
    what the callback does to the parent, with or without it. *)
Lemma wrapManualImage_as_update img d :
  Utils.wrapManualImage img d =
  match nodes d !! img ≫= parentElement with
  | None => d
  | Some p => update (set_classList (ClassList.add "manual-image-wrapper")) p d
  end.
Proof.
  unfold Utils.wrapManualImage. destruct (nodes d !! img ≫= parentElement) as [p|]; [|done].
  destruct (nodes d !! p) as [e|] eqn:E.
  - destruct (ClassList.contains _ (classList e)) eqn:Hc; [|done]. cbn [negb].
    symmetry. apply update_fixed. intros e' He'. rewrite E in He'. injection He' as <-.
    unfold set_classList. rewrite add_contained by done. by destruct e.
  - symmetry. apply update_fixed. intros e' He'. by rewrite E in He'.
Qed.

(** The parents that the loop over [imgs] reaches. *)
Lemma wrap_loop_as_updates (imgs : list ref) d :
  forEach Utils.wrapManualImage imgs d =
  forEach (update (set_classList (ClassList.add "manual-image-wrapper")))
          (omap (λ img, nodes d !! img ≫= parentElement) imgs) d.
Proof.
  unfold forEach. revert d. induction imgs as [|img imgs IH]; intros d; [done|].
  cbn [foldl omap list_omap]. rewrite wrapManualImage_as_update.
  destruct (nodes d !! img ≫= parentElement) as [p|]; [|apply IH].
  cbn [foldl]. rewrite IH. f_equal.
  apply list_omap_ext. apply Forall2_same_length_lookup_2; [done|].
  intros i x y Hx Hy. rewrite Hx in Hy. injection Hy as <-. rewrite lookup_update.
  case_decide; [|done]. by destruct (nodes d !! x).
Qed.

(** A loop of one idempotent update, also over repeated references. *)
Lemma lookup_forEach_update_idemp (f : element → element) (L : list ref) d r :
  (∀ e, f (f e) = f e) →
  nodes (forEach (update f) L d) !! r =
  if decide (r ∈ L) then f <$> nodes d !! r else nodes d !! r.
Proof.
  intros Hf. unfold forEach. revert d. induction L as [|x L IH]; intros d; cbn [foldl].
  - destruct (decide (r ∈ [])) as [Hin|]; [by apply elem_of_nil in Hin | done].
  - rewrite IH, !lookup_update. destruct (decide (r ∈ L)) as [Hin|Hin].
    + rewrite (decide_True (P := r ∈ x :: L)) by by apply list_elem_of_further.
      destruct (decide (x = r)); [|done]. destruct (nodes d !! r); [|done].
      cbn [fmap option_fmap option_map]. by rewrite Hf.
    + destruct (decide (x = r)) as [->|Hne].
      * by rewrite (decide_True (P := r ∈ r :: L)) by apply list_elem_of_here.
      * rewrite (decide_False (P := r ∈ x :: L)); [done|].
        rewrite elem_of_cons. intros [?|?]; congruence.
Qed.

Lemma addWrapper_idemp e :
  set_classList (ClassList.add "manual-image-wrapper")
    (set_classList (ClassList.add "manual-image-wrapper") e)
  = set_classList (ClassList.add "manual-image-wrapper") e.
Proof. unfold set_classList. cbn. by rewrite add_idemp. Qed.

(** The parents of the manual images of the document. *)
Lemma enhanceManualImages_document s :
  Utils.enhanceManualImages s =
  set_document
    (forEach (update (set_classList (ClassList.add "manual-image-wrapper")))
             (omap (λ img, nodes (document s) !! img ≫= parentElement)
                   (manualImages (document s)))) s.
Proof.
  unfold Utils.enhanceManualImages. fold (manualImages (document s)).
  rewrite (forEach_set_document Utils.wrapManualImage).
  unfold set_document. by rewrite wrap_loop_as_updates.
Qed.

Lemma enhanceManualImages_lookup s r :
  nodes (document (Utils.enhanceManualImages s)) !! r =
  if decide (r ∈ omap (λ img, nodes (document s) !! img ≫= parentElement)
                      (manualImages (document s)))
  then set_classList (ClassList.add "manual-image-wrapper") <$> nodes (document s) !! r
  else nodes (document s) !! r.
Proof.
  rewrite enhanceManualImages_document. cbn [document set_document].
  apply lookup_forEach_update_idemp, addWrapper_idemp.
Qed.

End ManualImages.

(** X18: after [enhanceManualImages()] the parent of every connected
    element of class "manual-image" carries the class
    "manual-image-wrapper"; the function does nothing else: each node is
    as before or has that one class added, and storage and listeners are
    untouched. *)
Theorem X18_enhanceManualImages_wraps (s : state) :
  let s' := Utils.enhanceManualImages s in
  (∀ img p e, img ∈ manualImages (document s) →
              nodes (document s) !! img ≫= parentElement = Some p →
              nodes (document s) !! p = Some e →
              has_class "manual-image-wrapper" p s' = true)
  ∧ (∀ r e, nodes (document s) !! r = Some e →
            nodes (document s') !! r = Some e
            ∨ nodes (document s') !! r
              = Some (set_classList (ClassList.add "manual-image-wrapper") e))
  ∧ localStorage s' = localStorage s
  ∧ listeners s' = listeners s.
Proof.
  cbv zeta. split; [|split].
  - intros img p e Himg Hp He. unfold has_class.
    rewrite enhanceManualImages_lookup, decide_True, He.
    + cbn [fmap option_fmap option_map classList set_classList].
      by rewrite contains_add, bool_decide_eq_true_2, orb_true_r.
    + apply list_elem_of_omap. by exists img.
  - intros r e He. rewrite enhanceManualImages_lookup, He. case_decide; auto.
  - by rewrite enhanceManualImages_document.
Qed.

Lemma X18_witness :
  has_class "manual-image-wrapper" 1 (Utils.enhanceManualImages Sample.start_manual) = true.
Proof.
  assert (Himg : 3 ∈ manualImages (document Sample.start_manual)) by compute_done.
  exact (proj1 (X18_enhanceManualImages_wraps Sample.start_manual) 3 1 _
           Himg eq_refl eq_refl).
Defined.

Section ManualImagesTwice.

Implicit Types (s : state).

Lemma enhanceManualImages_keeps s r e :
  nodes (document s) !! r = Some e →
  ∃ e', nodes (document (Utils.enhanceManualImages s)) !! r = Some e'
        ∧ tagName e' = tagName e ∧ attributes e' = attributes e
        ∧ parentElement e' = parentElement e ∧ isConnected e' = isConnected e
        ∧ ∀ c, c ≠ "manual-image-wrapper" →
               ClassList.contains c (classList e') = ClassList.contains c (classList e).
Proof.
  intros He. rewrite enhanceManualImages_lookup, He. case_decide; [|by exists e].
  eexists. split; [done|]. repeat split. intros c Hc.
  cbn [classList set_classList].
  by rewrite contains_add, (bool_decide_eq_false_2 _ Hc), orb_false_r.
Qed.

Lemma length_nodes_enhanceManualImages s :
  length (nodes (document (Utils.enhanceManualImages s))) = length (nodes (document s)).
Proof.
  rewrite enhanceManualImages_document. cbn [document set_document].
  apply length_nodes_forEach_update.
Qed.

Lemma manualImages_enhanceManualImages s :
  manualImages (document (Utils.enhanceManualImages s)) = manualImages (document s).
Proof.
  unfold manualImages. apply (stable_querySelectorAll _ _ "manual-image-wrapper"); [| |done].
  - apply length_nodes_enhanceManualImages.
  - apply enhanceManualImages_keeps.
Qed.

Lemma parents_enhanceManualImages s (img : ref) :
  nodes (document (Utils.enhanceManualImages s)) !! img ≫= parentElement
  = nodes (document s) !! img ≫= parentElement.
Proof.
  apply (stable_parent _ _ "manual-image-wrapper").
  - apply length_nodes_enhanceManualImages.
  - apply enhanceManualImages_keeps.
Qed.

End ManualImagesTwice.

(** X19: [enhanceManualImages()] is idempotent: a second run finds the
    same images and the same parents, all of which carry the class
    already. *)
Theorem X19_enhanceManualImages_idempotent (s : state) :
  Utils.enhanceManualImages (Utils.enhanceManualImages s) = Utils.enhanceManualImages s.
Proof.
  rewrite (enhanceManualImages_document (Utils.enhanceManualImages s)).
  rewrite manualImages_enhanceManualImages.
  apply set_document_fixed, dom_eq, list_eq. intros r.
  rewrite lookup_forEach_update_idemp by apply addWrapper_idemp.
  assert (omap (λ img, nodes (document (Utils.enhanceManualImages s)) !! img ≫= parentElement)
               (manualImages (document s))
          = omap (λ img, nodes (document s) !! img ≫= parentElement)
                 (manualImages (document s))) as ->.
  { apply list_omap_ext, Forall2_same_length_lookup_2; [done|].
    intros i x y Hx Hy. rewrite Hx in Hy. injection Hy as <-.
    apply parents_enhanceManualImages. }
  rewrite enhanceManualImages_lookup. case_decide; [|done].
  destruct (nodes (document s) !! r); [|done].
  cbn [fmap option_fmap option_map]. by rewrite addWrapper_idemp.
Qed.

(** ** Across the modules *)

Section Across.

Implicit Types (s : state).

(** No part of a split path holds the separator. *)
Lemma split_parts_no_slash (p : string) :
  Forall (λ part, includes part "/" = false) (split "/" p).
Proof.
  induction p as [|c p IH]; cbn [split].
  - by repeat constructor.
  - case_decide as Hc.
    + by constructor.
    + destruct (split "/" p) as [|part parts].
      * constructor; [|constructor]. rewrite includes_cons. cbn [startsWith].
        rewrite decide_False by congruence. done.
      * apply Forall_cons in IH as [Hpart Hparts]. constructor; [|done].
        rewrite includes_cons, Hpart. cbn [startsWith].
        rewrite decide_False by congruence. done.
Qed.

Lemma currentPage_no_slash (p : string) :
  includes (or_default (last_part (split "/" p)) "index.html") "/" = false
  ∧ or_default (last_part (split "/" p)) "index.html" ≠ "".
Proof.
  unfold last_part. destruct (split "/" p !! (length (split "/" p) - 1)) as [part|] eqn:E.
  - apply list_elem_of_lookup_2 in E.
    pose proof (proj1 (Forall_forall _ _) (split_parts_no_slash p) part E) as H.
    destruct part; [done|]. done.
  - done.
Qed.

Lemma language_step_theme_key s s' :
  language_step_ok s s' → Theme.getSavedTheme s' = Theme.getSavedTheme s.
Proof.
  intros (_ & [H | (g & _ & H)] & _); unfold Theme.getSavedTheme, getItem; rewrite H; [done|].
  by rewrite lookup_insert_ne.
Qed.

End Across.

(** X20: the two modules keep their preferences apart. No history of
    language calls changes the stored theme, and neither [Theme.init()]
    nor [toggle()] changes the stored language. *)
Theorem X20_storage_keys_apart (calls : list language_call) (s : state) :
  Theme.getSavedTheme (run_language_calls calls s) = Theme.getSavedTheme s
  ∧ Language.get (Theme.toggle s) = Language.get s
  ∧ Language.get (Theme.init s) = Language.get s.
Proof.
  split; [|split].
  - unfold run_language_calls, forEach. revert s.
    induction calls as [|c calls IH]; intros s; cbn [foldl]; [done|].
    rewrite IH. apply language_step_theme_key, run_language_call_ok.
  - unfold Language.get, getItem. rewrite (proj1 (toggle_fields s)).
    by rewrite lookup_insert_ne.
  - unfold Language.get, getItem.
    destruct (init_cases s) as [[_ ->] | (t & _ & _ & _ & ->)];
      rewrite (proj1 (proj2 (proj2 (setupToggleButton_fields _))));
      [unfold Theme.watchSystemTheme, Theme.applySystemTheme;
       cbn [localStorage addEventListener set_listeners]|];
      by rewrite (proj1 (applyTheme_fields _ s)).
Qed.

(** X21: for a supported language [switch] always navigates to a page
    directly below the language directory: the target is the base, the
    language, a slash and a non-empty file name without slash. Directories
    between the language and the file of the current path are dropped. *)
Theorem X21_switch_target_shape (L : string) (s : state) :
  L ∈ Language.SUPPORTED →
  ∃ base page,
    navigation (Language.switch L s) = Some (base +:+ L +:+ "/" +:+ page)
    ∧ (base = "/" ∨ base = "/jwtime/")
    ∧ includes page "/" = false
    ∧ page ≠ "".
Proof.
  intros HL. rewrite switch_supported by done. cbn [navigation set_href].
  exists (if includes (pathname s) "/jwtime/" then "/jwtime/" else "/"),
         (or_default (last_part (split "/" (pathname s))) "index.html").
  split; [done|]. split; [destruct (includes _ _); auto|].
  apply currentPage_no_slash.
Qed.

Lemma X21_witness :
  ∃ base page,
    navigation (Language.switch "es" (Sample.start "/en/guide/setup.html"))
    = Some (base +:+ "es" +:+ "/" +:+ page)
    ∧ (base = "/" ∨ base = "/jwtime/")
    ∧ includes page "/" = false
    ∧ page ≠ "".
Proof.
  apply (X21_switch_target_shape "es" (Sample.start "/en/guide/setup.html")).
  compute_done.
Defined.

(** X22: after [Theme.init()] a click on the toggle button is one call of
    [toggle()]: it flips the current theme and stores the new one. No click
    listener is on the button or above it before [init]. *)
Theorem X22_toggle_button_click (s : state) (btn : ref) :
  getElementById "theme-toggle" (document s) = Some btn →
  handlers_for (Element btn) "click" s = [] →
  let s1 := Theme.init s in
  click btn s1 = Theme.toggle s1
  ∧ Theme.getCurrentTheme (click btn s1) ≠ Theme.getCurrentTheme s1
  ∧ Theme.getSavedTheme (click btn s1) = Some (Theme.getCurrentTheme (click btn s1)).
Proof.
  intros Hbtn Hnone. cbv zeta.
  assert (Hh : handlers_for (Element btn) "click" (Theme.init s) = [ThemeToggleClick]).
  { assert (Hsetup : ∀ x, getElementById "theme-toggle" (document x) = Some btn →
                          handlers_for (Element btn) "click" x = [] →
                          handlers_for (Element btn) "click" (Theme.setupToggleButton x)
                          = [ThemeToggleClick]).
    { intros x Hx Hnx. unfold Theme.setupToggleButton. rewrite Hx.
      apply handlers_for_addEventListener_first.
      by rewrite handlers_for_updateToggleButton. }
    destruct (init_cases s) as [[_ ->] | (t & _ & _ & _ & ->)]; apply Hsetup.
    - unfold Theme.watchSystemTheme, Theme.applySystemTheme.
      cbn [document addEventListener set_listeners]. by rewrite getElementById_applyTheme.
    - unfold Theme.watchSystemTheme, Theme.applySystemTheme.
      rewrite handlers_for_addEventListener_off by (right; done).
      by rewrite handlers_for_applyTheme.
    - by rewrite getElementById_applyTheme.
    - by rewrite handlers_for_applyTheme. }
  assert (Hclick : click btn (Theme.init s) = Theme.toggle (Theme.init s)).
  { by rewrite (click_single _ _ _ Hh). }
  rewrite Hclick. split; [done|]. split; [|apply getSavedTheme_toggle].
  rewrite getCurrentTheme_toggle.
  destruct (getCurrentTheme_cases (Theme.init s)) as [-> | ->]; done.
Qed.

Lemma X22_witness :
  Theme.getSavedTheme (click 1 (Theme.init (Sample.start "/")))
  = Some (Theme.getCurrentTheme (click 1 (Theme.init (Sample.start "/")))).
Proof.
  exact (proj2 (proj2 (X22_toggle_button_click (Sample.start "/") 1 eq_refl eq_refl))).
Defined.
